(** * Layer transform actions of the design panel

    A shallow embedding of the transform action module (the second
    module of [src/js/jsx/shared/Carousel.jsx]): the geometry helpers,
    the commands in a trace-and-exception monad, and the table of
    exported actions with their lock declarations.

    The numbers of the transform actions are JavaScript numbers, that
    is IEEE 754 binary64 values: they are Rocq's primitive floats, and
    [+], [-], [/], [Math.abs] and [<] are the primitive operations, so
    that every sum, quotient and comparison rounds and decides as it
    does in the code. *)

From Stdlib Require Import Floats QArith Qround ZArith List String Bool Lia.
Import ListNotations.

Local Open Scope float_scope.

(** ** Data model *)

(** [Bounds] objects as the module reads them: the four edges and the
    two extents are all plain property reads in the source. *)
Module Bounds.
Record t : Type := mk {
  top : float;
  left : float;
  bottom : float;
  right : float;
  width : float;
  height : float
}.
End Bounds.

(** The [layerKinds] table hangs off every layer object
    ([layer.layerKinds.GROUP], [layer.layerKinds.GROUPEND]); its values
    are declared outside this module, so they are carried as data. *)
Module LayerKinds.
Record t : Type := mk {
  GROUP : Z;
  GROUPEND : Z
}.
End LayerKinds.

Module Layer.
Record t : Type := mk {
  id : Z;
  kind : Z;
  layerKinds : LayerKinds.t;
  isBackground : bool
}.
End Layer.

(** [document.layers]: the queries of the layer structure that the
    commands call synchronously. *)
Module LayerStructure.
Record t : Type := mk {
  childBounds : Layer.t -> Bounds.t;
  descendants : Layer.t -> list Layer.t;
  selected : list Layer.t;
  selectedLocked : bool
}.
End LayerStructure.

Module Document.
Record t : Type := mk {
  id : Z;
  bounds : Bounds.t;
  layers : LayerStructure.t
}.
End Document.

(** [{x: number, y: number}]; a field is [None] when the object has no
    own property of that name ([hasOwnProperty] is false). *)
Module Position.
Record t : Type := mk {
  x : option float;
  y : option float
}.
End Position.

(** [{w: number, h: number}], with the same reading of absent fields. *)
Module Size.
Record t : Type := mk {
  w : option float;
  h : option float
}.
End Size.

(** ** Numeric primitives *)

(** [Math.min(a, b)] and [Math.max(a, b)]: [NaN] as soon as an argument
    is [NaN]; otherwise the smaller, respectively the larger, of the
    two, where [-0] counts as smaller than [+0]. *)
Definition Math_min (a b : float) : float :=
  if PrimFloat.is_nan a || PrimFloat.is_nan b then PrimFloat.nan
  else if a <? b then a
  else if b <? a then b
  else if PrimFloat.get_sign a then a else b.

Definition Math_max (a b : float) : float :=
  if PrimFloat.is_nan a || PrimFloat.is_nan b then PrimFloat.nan
  else if a <? b then b
  else if b <? a then a
  else if PrimFloat.get_sign a then b else a.

(** [sensitivity || 10]: the default applies when the argument is
    omitted ([None]) and when it is a falsy number: [+0], [-0] or
    [NaN]. *)
Definition orDefault (sensitivity : option float) (d : float) : float :=
  match sensitivity with
  | Some s => if PrimFloat.is_zero s || PrimFloat.is_nan s then d else s
  | None => d
  end.

(** ** The swap-location heuristic *)

Definition _calculateSwapLocations
    (document : Document.t) (layers : list Layer.t) (sensitivity : option float)
  : option (Position.t * Position.t) :=
  let sensitivity := orDefault sensitivity 10 in
  match nth_error layers 0, nth_error layers 1 with
  | Some layer0, Some layer1 =>
    let l1 := LayerStructure.childBounds (Document.layers document) layer0 in
    let l2 := LayerStructure.childBounds (Document.layers document) layer1 in
    let boundingBox_left := Math_min (Bounds.left l1) (Bounds.left l2) in
    let boundingBox_right := Math_max (Bounds.right l1) (Bounds.right l2) in
    let boundingBox_top := Math_min (Bounds.top l1) (Bounds.top l2) in
    let boundingBox_bottom := Math_max (Bounds.bottom l1) (Bounds.bottom l2) in
    let l1VertCenter := Bounds.top l1 + Bounds.height l1 / 2 in
    let l2VertCenter := Bounds.top l2 + Bounds.height l2 / 2 in
    let l1HorzCenter := Bounds.left l1 + Bounds.width l1 / 2 in
    let l2HorzCenter := Bounds.left l2 + Bounds.width l2 / 2 in
    let heightFraction := (boundingBox_bottom - boundingBox_top) / sensitivity in
    let widthFraction := (boundingBox_right - boundingBox_left) / sensitivity in
    let verticalEdgeClose :=
      (PrimFloat.abs (Bounds.left l1 - Bounds.left l2) <? widthFraction)
      || (PrimFloat.abs (Bounds.right l1 - Bounds.right l2) <? widthFraction)
      || (PrimFloat.abs (l1HorzCenter - l2HorzCenter) <? widthFraction) in
    let horizontalEdgeClose :=
      (PrimFloat.abs (Bounds.top l1 - Bounds.top l2) <? heightFraction)
      || (PrimFloat.abs (Bounds.bottom l1 - Bounds.bottom l2) <? heightFraction)
      || (PrimFloat.abs (l1VertCenter - l2VertCenter) <? heightFraction) in
    if verticalEdgeClose then
      Some (Position.mk (Some (Bounds.left l1)) (Some (Bounds.top l2)),
            Position.mk (Some (Bounds.left l2)) (Some (Bounds.top l1)))
    else if horizontalEdgeClose then
      Some (Position.mk
              (Some (boundingBox_left + boundingBox_right - Bounds.right l1))
              (Some (Bounds.top l1)),
            Position.mk
              (Some (boundingBox_left + boundingBox_right - Bounds.right l2))
              (Some (Bounds.top l2)))
    else
      Some (Position.mk (Some (Bounds.left l2)) (Some (Bounds.top l2)),
            Position.mk (Some (Bounds.left l1)) (Some (Bounds.top l1)))
  | _, _ => None
  end.

(** ** Play objects, events and effects *)

(** [unitLib.pixels(v)] tags a number with its unit. *)
Module unitLib.
Inductive UnitValue : Type :=
| pixels (value : float).
End unitLib.

(** References built by [documentLib.referenceBy.id],
    [layerLib.referenceBy.id] and [layerLib.referenceBy.current]. *)
Inductive Reference : Type :=
| DocumentById (id : Z)
| LayerById (id : Z)
| LayerCurrent.

(** The descriptors the adapter library builds, kept symbolic: the
    module only constructs them and hands them to the gateway. *)
Inductive PlayObject : Type :=
| PlayTranslate (ref : list Reference) (xDelta yDelta : unitLib.UnitValue)
| PlaySelect (ref : list Reference)
| PlaySetSize (ref : list Reference) (w h : unitLib.UnitValue)
| PlayFlip (ref : Reference) (axis : string)
| PlayRotate (ref : list Reference) (angle : float)
| PlayDocumentResize (w h : unitLib.UnitValue)
| PlaySetRadius (radius : float)
| PlayMerge (object source : PlayObject).

Module documentLib.
Definition referenceBy_id := DocumentById.
Definition resize := PlayDocumentResize.
End documentLib.

Module layerLib.
Definition referenceBy_id := LayerById.
Definition referenceBy_current := LayerCurrent.
Definition translate := PlayTranslate.
Definition select := PlaySelect.
Definition setSize := PlaySetSize.
Definition flip := PlayFlip.
Definition rotate := PlayRotate.
End layerLib.

Module contentLib.
Definition setRadius := PlaySetRadius.
End contentLib.

Module lodash.
Definition merge := PlayMerge.
End lodash.

(** [batchOptions] of [swapLayersCommand]. *)
Record HistoryStateInfo : Type := {
  name : string;
  target : Reference
}.

(** The two entry points of the native command gateway. *)
Inductive NativeCall : Type :=
| playObject (obj : PlayObject)
| batchPlayObjects (objs : list PlayObject) (historyStateInfo : option HistoryStateInfo).

Inductive EventName : Type :=
| TRANSLATE_LAYERS
| RESIZE_DOCUMENT
| RESIZE_LAYERS
| RADII_CHANGED.

Record Radii : Type := {
  topLeft : float;
  topRight : float;
  bottomRight : float;
  bottomLeft : float
}.

(** Event payloads: [{documentID, layerIDs, position | size | radii}]. *)
Inductive Payload : Type :=
| PositionPayload (documentID : Z) (layerIDs : list Z) (position : Position.t)
| SizePayload (documentID : Z) (layerIDs : list Z) (size : Size.t)
| RadiiPayload (documentID : Z) (layerIDs : list Z) (radii : Radii).

(** Targets of [this.transfer]: the reconciliation action of the layers
    module and the actions of this module. *)
Inductive TransferRequest : Type :=
| ToResetLayers (document : Document.t) (layers : list Layer.t)
| ToFlipX (document : Document.t) (layers : list Layer.t)
| ToFlipY (document : Document.t) (layers : list Layer.t)
| ToSwapLayers (document : Document.t) (layers : list Layer.t)
| ToRotate (document : Document.t) (angle : float).

(** What a command does to the outside, in order. *)
Inductive Effect : Type :=
| Dispatch (event : EventName) (payload : Payload)
| Native (call : NativeCall)
| Transfer (request : TransferRequest)
| LogError (message : string).

(** Thrown values and rejection reasons. *)
Inductive Exception : Type :=
| Error (message : string)
| TypeError (message : string).

(** A settled promise; every promise of this module carries
    [undefined] when it is fulfilled. *)
Inductive Promise : Type :=
| Fulfilled
| Rejected (reason : Exception).

(** The collaborators a command talks to: the gateway decides how each
    native call settles, the scheduler how each transferred action
    settles, and the application store names the current document. *)
Record Env : Type := {
  gateway : NativeCall -> Promise;
  scheduler : TransferRequest -> Promise;
  getCurrentDocument : option Document.t
}.

(** ** The command monad: a trace of effects and a completion *)

Inductive Completion (A : Type) : Type :=
| Normal (value : A)
| Throw (exn : Exception).
Arguments Normal {A} value.
Arguments Throw {A} exn.

Definition M (A : Type) : Type := Env -> list Effect * Completion A.

Definition ret {A} (a : A) : M A := fun _ => ([], Normal a).

Definition bind {A B} (m : M A) (k : A -> M B) : M B :=
  fun env =>
    match m env with
    | (t1, Normal a) => let (t2, c) := k a env in (t1 ++ t2, c)
    | (t1, Throw e) => (t1, Throw e)
    end.

Definition throw {A} (e : Exception) : M A := fun _ => ([], Throw e).

Declare Scope cmd_scope.
Delimit Scope cmd_scope with cmd.
Notation "x <- m ;; k" := (bind m (fun x => k))
  (at level 100, m at next level, right associativity) : cmd_scope.
Notation "m ;; k" := (bind m (fun _ => k))
  (at level 100, right associativity) : cmd_scope.
Local Open Scope cmd_scope.

Definition dispatch (event : EventName) (payload : Payload) : M unit :=
  fun _ => ([Dispatch event payload], Normal tt).

Definition log_error (message : string) : M unit :=
  fun _ => ([LogError message], Normal tt).

Module descriptor.
Definition playObject (obj : PlayObject) : M Promise :=
  fun env => ([Native (playObject obj)], Normal (gateway env (playObject obj))).
Definition batchPlayObjects
    (objs : list PlayObject) (options : option HistoryStateInfo) : M Promise :=
  fun env => ([Native (batchPlayObjects objs options)],
              Normal (gateway env (batchPlayObjects objs options))).
End descriptor.

Definition transfer (request : TransferRequest) : M Promise :=
  fun env => ([Transfer request], Normal (scheduler env request)).

Definition Promise_resolve : M Promise := ret Fulfilled.

(** [promise.then(callback)]: the callback runs only once the promise is
    fulfilled and the result adopts the promise the callback returns; a
    rejection skips the callback and passes on with the same reason; an
    exception inside the callback rejects the result. *)
Definition then_ (promise : Promise) (callback : M Promise) : M Promise :=
  match promise with
  | Fulfilled =>
    fun env =>
      match callback env with
      | (t, Normal p) => (t, Normal p)
      | (t, Throw e) => (t, Normal (Rejected e))
      end
  | Rejected reason => ret (Rejected reason)
  end.


(** ** Helpers over layer collections *)

Definition isGroup (layer : Layer.t) : bool :=
  (Layer.kind layer =? LayerKinds.GROUP (Layer.layerKinds layer))%Z.

Definition isGroupEnd (layer : Layer.t) : bool :=
  (Layer.kind layer =? LayerKinds.GROUPEND (Layer.layerKinds layer))%Z.

(** [collection.pluck(layers, "id")]. *)
Definition pluck_id (layers : list Layer.t) : list Z := map Layer.id layers.

(** [layerSpec.filterNot(layer => layer.kind === layer.layerKinds.GROUPEND)]. *)
Definition filterNotGroupEnd (layerSpec : list Layer.t) : list Layer.t :=
  filter (fun layer => negb (isGroupEnd layer)) layerSpec.

Definition LayerKinds_eq_dec (a b : LayerKinds.t) : {a = b} + {a <> b}.
Proof. decide equality; apply Z.eq_dec. Defined.

Definition Layer_eq_dec (a b : Layer.t) : {a = b} + {a <> b}.
Proof.
  decide equality;
    [apply bool_dec | apply LayerKinds_eq_dec | apply Z.eq_dec | apply Z.eq_dec].
Defined.

(** [.toSet()]: the layers without repetition. *)
Definition toSet (layers : list Layer.t) : list Layer.t :=
  nodup Layer_eq_dec layers.

(** [layers.flatMap(document.layers.descendants, document.layers).toSet()]. *)
Definition allDescendants (document : Document.t) (layers : list Layer.t)
  : list Layer.t :=
  toSet (flat_map (LayerStructure.descendants (Document.layers document)) layers).

Definition _transformingAnyGroups (layerSpec : list Layer.t) : bool :=
  existsb isGroup layerSpec.

(** ** Commands *)

Definition _getTranslatePlayObject
    (document : Document.t) (layer : Layer.t) (position : Position.t)
  : PlayObject :=
  let childBounds := LayerStructure.childBounds (Document.layers document) layer in
  let documentRef := documentLib.referenceBy_id (Document.id document) in
  let layerRef := [documentRef; layerLib.referenceBy_id (Layer.id layer)] in
  let newX := match Position.x position with
              | Some x => x
              | None => Bounds.left childBounds
              end in
  let newY := match Position.y position with
              | Some y => y
              | None => Bounds.top childBounds
              end in
  let xDelta := unitLib.pixels (newX - Bounds.left childBounds) in
  let yDelta := unitLib.pixels (newY - Bounds.top childBounds) in
  layerLib.translate layerRef xDelta yDelta.

Definition setPositionCommand
    (document : Document.t) (layerSpec : list Layer.t) (position : Position.t)
  : M Promise :=
  let layerSpec := filterNotGroupEnd layerSpec in
  let layerIDs := pluck_id layerSpec in
  let payload := PositionPayload (Document.id document) layerIDs position in
  dispatch TRANSLATE_LAYERS payload ;;
  match layerSpec with
  | [layer] =>
    let translateObj := _getTranslatePlayObject document layer position in
    p <- descriptor.playObject translateObj ;;
    then_ p
      (if _transformingAnyGroups layerSpec then
         let descendants :=
           LayerStructure.descendants (Document.layers document) layer in
         transfer (ToResetLayers document descendants)
       else ret Fulfilled)
  | _ =>
    let documentRef := documentLib.referenceBy_id (Document.id document) in
    let playObjects :=
      fold_left
        (fun playObjects layer =>
           let layerRef := layerLib.referenceBy_id (Layer.id layer) in
           let selectObj := layerLib.select [documentRef; layerRef] in
           let translateObj := _getTranslatePlayObject document layer position in
           playObjects ++ [selectObj; translateObj])
        layerSpec [] in
    let allLayerRefs :=
      map (fun layer => layerLib.referenceBy_id (Layer.id layer)) layerSpec in
    let allLayerRefs := documentRef :: allLayerRefs in
    let selectAllObj := layerLib.select allLayerRefs in
    let playObjects := playObjects ++ [selectAllObj] in
    p <- descriptor.batchPlayObjects playObjects None ;;
    then_ p
      (if _transformingAnyGroups layerSpec then
         transfer (ToResetLayers document (allDescendants document layerSpec))
       else ret Fulfilled)
  end.

(** [Immutable.List.of(a, b)] is returned as a pair; the call inside
    [swapLayersCommand] omits the sensitivity. *)
Definition swapLayersCommand (document : Document.t) (layers : list Layer.t)
  : M Promise :=
  if negb (List.length layers =? 2)%nat then throw (Error "Expected two layers")
  else if forallb isGroupEnd layers then Promise_resolve
  else
    match _calculateSwapLocations document layers None,
          nth_error layers 0, nth_error layers 1 with
    | Some (newPositions0, newPositions1), Some layers0, Some layers1 =>
      let documentRef := documentLib.referenceBy_id (Document.id document) in
      let translateObjects :=
        [_getTranslatePlayObject document layers0 newPositions0;
         _getTranslatePlayObject document layers1 newPositions1] in
      let payloadOne :=
        PositionPayload (Document.id document) [Layer.id layers0] newPositions0 in
      let payloadTwo :=
        PositionPayload (Document.id document) [Layer.id layers1] newPositions1 in
      dispatch TRANSLATE_LAYERS payloadOne ;;
      dispatch TRANSLATE_LAYERS payloadTwo ;;
      let playObjects :=
        fold_left
          (fun playObjects '(layer, translateObj) =>
             let layerRef := layerLib.referenceBy_id (Layer.id layer) in
             let selectObj := layerLib.select [documentRef; layerRef] in
             playObjects ++ [selectObj; translateObj])
          (combine layers translateObjects) [] in
      let layerRef :=
        map (fun layer => layerLib.referenceBy_id (Layer.id layer)) layers in
      let layerRef := documentRef :: layerRef in
      let playObjects := playObjects ++ [layerLib.select layerRef] in
      let batchOptions :=
        {| name := "swap-layers"; target := documentRef |} in
      p <- descriptor.batchPlayObjects playObjects (Some batchOptions) ;;
      then_ p
        (if _transformingAnyGroups layers then
           transfer (ToResetLayers document (allDescendants document layers))
         else ret Fulfilled)
    | _, _, _ => throw (TypeError "undefined layer")
    end.

Definition setBoundsCommand
    (document : Document.t) (oldBounds newBounds : Bounds.t) : M Promise :=
  let documentRef := documentLib.referenceBy_id (Document.id document) in
  let widthDiff := Bounds.width newBounds - Bounds.width oldBounds in
  let heightDiff := Bounds.height newBounds - Bounds.height oldBounds in
  let xDelta :=
    unitLib.pixels (Bounds.left newBounds - Bounds.left oldBounds + widthDiff / 2) in
  let yDelta :=
    unitLib.pixels (Bounds.top newBounds - Bounds.top oldBounds + heightDiff / 2) in
  let pixelWidth := unitLib.pixels (Bounds.width newBounds) in
  let pixelHeight := unitLib.pixels (Bounds.height newBounds) in
  let layerRef := [documentRef; layerLib.referenceBy_current] in
  let translateObj := layerLib.translate layerRef xDelta yDelta in
  let resizeObj := layerLib.setSize layerRef pixelWidth pixelHeight in
  let resizeAndMoveObj := lodash.merge translateObj resizeObj in
  p <- descriptor.playObject resizeAndMoveObj ;;
  then_ p
    (let selected := LayerStructure.selected (Document.layers document) in
     let descendants := allDescendants document selected in
     transfer (ToResetLayers document descendants)).

Definition _getResizePlayObject
    (document : Document.t) (layer : Layer.t) (size : Size.t) : PlayObject :=
  let childBounds := LayerStructure.childBounds (Document.layers document) layer in
  let documentRef := documentLib.referenceBy_id (Document.id document) in
  let newWidth := match Size.w size with
                  | Some w => w
                  | None => Bounds.width childBounds
                  end in
  let newHeight := match Size.h size with
                   | Some h => h
                   | None => Bounds.height childBounds
                   end in
  let widthDiff := newWidth - Bounds.width childBounds in
  let heightDiff := newHeight - Bounds.height childBounds in
  let pixelWidth := unitLib.pixels newWidth in
  let pixelHeight := unitLib.pixels newHeight in
  let xDelta := unitLib.pixels (widthDiff / 2) in
  let yDelta := unitLib.pixels (heightDiff / 2) in
  let layerRef := [documentRef; layerLib.referenceBy_id (Layer.id layer)] in
  let translateObj := layerLib.translate layerRef xDelta yDelta in
  let resizeObj := layerLib.setSize layerRef pixelWidth pixelHeight in
  lodash.merge translateObj resizeObj.

Definition setSizeCommand
    (document : Document.t) (layerSpec : list Layer.t) (size : Size.t)
  : M Promise :=
  let layerSpec := filterNotGroupEnd layerSpec in
  let layerIDs := pluck_id layerSpec in
  let payload := SizePayload (Document.id document) layerIDs size in
  match layerSpec with
  | [] =>
    dispatch RESIZE_DOCUMENT payload ;;
    let newWidth := match Size.w size with
                    | Some w => w
                    | None => Bounds.width (Document.bounds document)
                    end in
    let unitsWidth := unitLib.pixels newWidth in
    let newHeight := match Size.h size with
                     | Some h => h
                     | None => Bounds.height (Document.bounds document)
                     end in
    let unitsHeight := unitLib.pixels newHeight in
    let resizeObj := documentLib.resize unitsWidth unitsHeight in
    descriptor.playObject resizeObj
  | [layer] =>
    dispatch RESIZE_LAYERS payload ;;
    let resizeAndMoveObj := _getResizePlayObject document layer size in
    p <- descriptor.playObject resizeAndMoveObj ;;
    then_ p
      (if _transformingAnyGroups layerSpec then
         let descendants :=
           LayerStructure.descendants (Document.layers document) layer in
         transfer (ToResetLayers document descendants)
       else ret Fulfilled)
  | _ =>
    dispatch RESIZE_LAYERS payload ;;
    let documentRef := documentLib.referenceBy_id (Document.id document) in
    let playObjects :=
      fold_left
        (fun playObjects layer =>
           let layerRef := layerLib.referenceBy_id (Layer.id layer) in
           let selectObj := layerLib.select [documentRef; layerRef] in
           let resizeAndMoveObj := _getResizePlayObject document layer size in
           playObjects ++ [selectObj; resizeAndMoveObj])
        layerSpec [] in
    let allLayerRefs :=
      map (fun layer => layerLib.referenceBy_id (Layer.id layer)) layerSpec in
    let allLayerRefs := documentRef :: allLayerRefs in
    let selectAllObj := layerLib.select allLayerRefs in
    let playObjects := playObjects ++ [selectAllObj] in
    p <- descriptor.batchPlayObjects playObjects None ;;
    then_ p
      (if _transformingAnyGroups layerSpec then
         transfer (ToResetLayers document (allDescendants document layerSpec))
       else ret Fulfilled)
  end.

Definition flipCommand
    (document : Document.t) (layers : list Layer.t) (axis : string)
  : M Promise :=
  if (List.length layers <? 1)%nat then throw (Error "Expected at least one layer")
  else
    match find (fun l => negb (Layer.isBackground l)) layers with
    | None => throw (Error "flip was not provided a valid non-background layer")
    | Some repLayer =>
      let ref := layerLib.referenceBy_id (Layer.id repLayer) in
      flipPromise <- descriptor.playObject (layerLib.flip ref axis) ;;
      then_ flipPromise
        (let descendants := allDescendants document layers in
         transfer (ToResetLayers document descendants))
    end.

Definition flipXCommand (document : Document.t) (layers : list Layer.t)
  : M Promise :=
  flipCommand document layers "horizontal".

Definition flipYCommand (document : Document.t) (layers : list Layer.t)
  : M Promise :=
  flipCommand document layers "vertical".

(** The application store's current document; [None] is [null]. *)
Definition applicationStore_getCurrentDocument : M (option Document.t) :=
  fun env => ([], Normal (getCurrentDocument env)).

(** [selectedLayers] is read off [currentDocument.layers] before the
    null test, so a missing document raises there. *)
Definition flipXCurrentDocumentCommand : M Promise :=
  currentDocument <- applicationStore_getCurrentDocument ;;
  match currentDocument with
  | None => throw (TypeError "Cannot read property 'layers' of null")
  | Some currentDocument =>
    let selectedLayers :=
      LayerStructure.selected (Document.layers currentDocument) in
    if LayerStructure.selectedLocked (Document.layers currentDocument)
    then Promise_resolve
    else transfer (ToFlipX currentDocument selectedLayers)
  end.

Definition flipYCurrentDocumentCommand : M Promise :=
  currentDocument <- applicationStore_getCurrentDocument ;;
  match currentDocument with
  | None => throw (TypeError "Cannot read property 'layers' of null")
  | Some currentDocument =>
    let selectedLayers :=
      LayerStructure.selected (Document.layers currentDocument) in
    if LayerStructure.selectedLocked (Document.layers currentDocument)
    then Promise_resolve
    else transfer (ToFlipY currentDocument selectedLayers)
  end.

Definition setRadiusCommand
    (document : Document.t) (layers : list Layer.t) (radius : float) : M Promise :=
  let radiusDescriptor := contentLib.setRadius radius in
  dispatch RADII_CHANGED
    (RadiiPayload (Document.id document) (pluck_id layers)
       {| topLeft := radius; topRight := radius;
          bottomRight := radius; bottomLeft := radius |}) ;;
  descriptor.playObject radiusDescriptor.

Definition swapLayersCurrentDocumentCommand : M Promise :=
  currentDocument <- applicationStore_getCurrentDocument ;;
  match currentDocument with
  | None => throw (TypeError "Cannot read property 'layers' of null")
  | Some currentDocument =>
    let selectedLayers :=
      LayerStructure.selected (Document.layers currentDocument) in
    if LayerStructure.selectedLocked (Document.layers currentDocument)
       || negb (List.length selectedLayers =? 2)%nat
    then Promise_resolve
    else transfer (ToSwapLayers currentDocument selectedLayers)
  end.

Definition rotateCommand (document : Document.t) (angle : float) : M Promise :=
  let documentRef := documentLib.referenceBy_id (Document.id document) in
  let layerRef := [documentRef; layerLib.referenceBy_current] in
  let rotateObj := layerLib.rotate layerRef angle in
  p <- descriptor.playObject rotateObj ;;
  then_ p
    (let selected := LayerStructure.selected (Document.layers document) in
     let descendants := allDescendants document selected in
     transfer (ToResetLayers document descendants)).

(** The menu payload [{angle: number}]; [None] when the object has no
    own [angle] property. *)
Record RotatePayload : Type := {
  angle : option float
}.

Definition rotateLayersInCurrentDocumentCommand (payload : RotatePayload)
  : M Promise :=
  match angle payload with
  | None =>
    log_error "Missing angle" ;;
    Promise_resolve
  | Some angle =>
    currentDocument <- applicationStore_getCurrentDocument ;;
    match currentDocument with
    | None => Promise_resolve
    | Some currentDocument =>
      if LayerStructure.selectedLocked (Document.layers currentDocument)
      then Promise_resolve
      else transfer (ToRotate currentDocument angle)
    end
  end.

(** ** Actions and their lock declarations *)

(** Modelled from the spec: the lock names of [js/locks], whose module is
    not part of the sources at hand. A lock name is an enumerated token
    for a shared resource; the three this module declares stand for the
    native document ([locks.PS_DOC]), the in-memory document
    ([locks.JS_DOC]) and the application state ([locks.JS_APP]). *)
Inductive LockName : Type :=
| PS_DOC
| JS_DOC
| JS_APP.

Record Action (Command : Type) : Type := {
  command : Command;
  reads : list LockName;
  writes : list LockName
}.
Arguments command {Command} _.
Arguments reads {Command} _.
Arguments writes {Command} _.

Definition setPosition :=
  {| command := setPositionCommand;
     reads := [PS_DOC; JS_DOC];
     writes := [PS_DOC; JS_DOC] |}.

Definition setSize :=
  {| command := setSizeCommand;
     reads := [PS_DOC; JS_DOC];
     writes := [PS_DOC; JS_DOC] |}.

Definition setBounds :=
  {| command := setBoundsCommand;
     reads := [PS_DOC; JS_DOC];
     writes := [PS_DOC; JS_DOC] |}.

Definition flipX :=
  {| command := flipXCommand;
     reads := [PS_DOC; JS_DOC];
     writes := [PS_DOC; JS_DOC] |}.

Definition flipY :=
  {| command := flipYCommand;
     reads := [PS_DOC; JS_DOC];
     writes := [PS_DOC; JS_DOC] |}.

Definition flipXCurrentDocument :=
  {| command := flipXCurrentDocumentCommand;
     reads := [PS_DOC; JS_DOC; JS_APP];
     writes := [PS_DOC; JS_DOC] |}.

Definition flipYCurrentDocument :=
  {| command := flipYCurrentDocumentCommand;
     reads := [PS_DOC; JS_DOC; JS_APP];
     writes := [PS_DOC; JS_DOC] |}.

Definition swapLayers :=
  {| command := swapLayersCommand;
     reads := [PS_DOC; JS_DOC];
     writes := [PS_DOC; JS_DOC] |}.

Definition swapLayersCurrentDocument :=
  {| command := swapLayersCurrentDocumentCommand;
     reads := [PS_DOC; JS_DOC; JS_APP];
     writes := [PS_DOC; JS_DOC] |}.

Definition setRadius :=
  {| command := setRadiusCommand;
     reads := [PS_DOC; JS_DOC];
     writes := [PS_DOC; JS_DOC] |}.

Definition rotate :=
  {| command := rotateCommand;
     reads := [PS_DOC; JS_DOC];
     writes := [PS_DOC; JS_DOC] |}.

Definition rotateLayersInCurrentDocument :=
  {| command := rotateLayersInCurrentDocumentCommand;
     reads := [PS_DOC; JS_DOC; JS_APP];
     writes := [PS_DOC; JS_DOC] |}.

(** The lock declaration of an action, whatever its command takes. *)
Record Locks : Type := {
  lock_reads : list LockName;
  lock_writes : list LockName
}.

Definition locksOf {Command} (action : Action Command) : Locks :=
  {| lock_reads := reads action; lock_writes := writes action |}.

(** The [exports] object, in the order of the assignments. *)
Definition exports : list (string * Locks) :=
  [ ("setPosition", locksOf setPosition);
    ("setSize", locksOf setSize);
    ("flipX", locksOf flipX);
    ("flipY", locksOf flipY);
    ("flipXCurrentDocument", locksOf flipXCurrentDocument);
    ("flipYCurrentDocument", locksOf flipYCurrentDocument);
    ("swapLayers", locksOf swapLayers);
    ("swapLayersCurrentDocument", locksOf swapLayersCurrentDocument);
    ("setRadius", locksOf setRadius);
    ("setBounds", locksOf setBounds);
    ("rotate", locksOf rotate);
    ("rotateLayersInCurrentDocument", locksOf rotateLayersInCurrentDocument) ]%string.

(** ** Closeness of edges *)

(** The combined bounding box's extents divided by the sensitivity in
    force, computed as the code computes them. *)
Definition widthFractionOf (l1 l2 : Bounds.t) (sensitivity : option float)
  : float :=
  (Math_max (Bounds.right l1) (Bounds.right l2)
   - Math_min (Bounds.left l1) (Bounds.left l2)) / orDefault sensitivity 10.

Definition heightFractionOf (l1 l2 : Bounds.t) (sensitivity : option float)
  : float :=
  (Math_max (Bounds.bottom l1) (Bounds.bottom l2)
   - Math_min (Bounds.top l1) (Bounds.top l2)) / orDefault sensitivity 10.

(** Left edges, right edges or horizontal centers closer than the width
    fraction; the differences, the centers and the comparison are the
    code's own. *)
Definition VerticalEdgeClose
    (l1 l2 : Bounds.t) (sensitivity : option float) : Prop :=
  (PrimFloat.abs (Bounds.left l1 - Bounds.left l2)
   <? widthFractionOf l1 l2 sensitivity) = true
  \/ (PrimFloat.abs (Bounds.right l1 - Bounds.right l2)
      <? widthFractionOf l1 l2 sensitivity) = true
  \/ (PrimFloat.abs ((Bounds.left l1 + Bounds.width l1 / 2)
                     - (Bounds.left l2 + Bounds.width l2 / 2))
      <? widthFractionOf l1 l2 sensitivity) = true.

(** Top edges, bottom edges or vertical centers closer than the height
    fraction. *)
Definition HorizontalEdgeClose
    (l1 l2 : Bounds.t) (sensitivity : option float) : Prop :=
  (PrimFloat.abs (Bounds.top l1 - Bounds.top l2)
   <? heightFractionOf l1 l2 sensitivity) = true
  \/ (PrimFloat.abs (Bounds.bottom l1 - Bounds.bottom l2)
      <? heightFractionOf l1 l2 sensitivity) = true
  \/ (PrimFloat.abs ((Bounds.top l1 + Bounds.height l1 / 2)
                     - (Bounds.top l2 + Bounds.height l2 / 2))
      <? heightFractionOf l1 l2 sensitivity) = true.

(** ** Reading traces *)

(** The native calls of a trace, in order. *)
Fixpoint natives (trace : list Effect) : list NativeCall :=
  match trace with
  | [] => []
  | Native call :: rest => call :: natives rest
  | _ :: rest => natives rest
  end.

(** The events of a trace, in order. *)
Fixpoint dispatched (trace : list Effect) : list (EventName * Payload) :=
  match trace with
  | [] => []
  | Dispatch event payload :: rest => (event, payload) :: dispatched rest
  | _ :: rest => dispatched rest
  end.

(** The transfers of a trace, in order. *)
Fixpoint transfers (trace : list Effect) : list TransferRequest :=
  match trace with
  | [] => []
  | Transfer request :: rest => request :: transfers rest
  | _ :: rest => transfers rest
  end.

(** ** Calls and the shape of their runs *)

(** A call of one of the actions whose command issues native calls. *)
Inductive Invocation : Type :=
| CallSetPosition (document : Document.t) (layerSpec : list Layer.t)
                  (position : Position.t)
| CallSetSize (document : Document.t) (layerSpec : list Layer.t) (size : Size.t)
| CallSetBounds (document : Document.t) (oldBounds newBounds : Bounds.t)
| CallFlipX (document : Document.t) (layers : list Layer.t)
| CallFlipY (document : Document.t) (layers : list Layer.t)
| CallSwapLayers (document : Document.t) (layers : list Layer.t)
| CallSetRadius (document : Document.t) (layers : list Layer.t) (radius : float)
| CallRotate (document : Document.t) (angle : float).

Definition invoke (call : Invocation) : M Promise :=
  match call with
  | CallSetPosition document layerSpec position =>
    command setPosition document layerSpec position
  | CallSetSize document layerSpec size =>
    command setSize document layerSpec size
  | CallSetBounds document oldBounds newBounds =>
    command setBounds document oldBounds newBounds
  | CallFlipX document layers => command flipX document layers
  | CallFlipY document layers => command flipY document layers
  | CallSwapLayers document layers => command swapLayers document layers
  | CallSetRadius document layers radius =>
    command setRadius document layers radius
  | CallRotate document angle => command rotate document angle
  end.

(** The commands that dispatch a state-update event at all. *)
Definition dispatchesEvent (call : Invocation) : bool :=
  match call with
  | CallSetPosition _ _ _ | CallSetSize _ _ _
  | CallSwapLayers _ _ | CallSetRadius _ _ _ => true
  | CallSetBounds _ _ _ | CallFlipX _ _ | CallFlipY _ _ | CallRotate _ _ => false
  end.

(** Whether an event is dispatched ahead of the first native call. *)
Fixpoint dispatchedBeforeNative (trace : list Effect) : bool :=
  match trace with
  | [] => false
  | Dispatch _ _ :: _ => true
  | Native _ :: _ => false
  | _ :: rest => dispatchedBeforeNative rest
  end.

Definition IsDispatch (effect : Effect) : Prop :=
  exists event payload, effect = Dispatch event payload.

(** The runs a command of this module can have: it throws or resolves
    before doing anything, or it dispatches its events, issues its one
    native call and then, only if that call is fulfilled, possibly
    transfers to a reconciliation. [dispatches] tells whether the events
    before the call are there. *)
Inductive Run (env : Env) (dispatches : bool)
  : list Effect * Completion Promise -> Prop :=
| RunThrows exn : Run env dispatches ([], Throw exn)
| RunNothing : Run env dispatches ([], Normal Fulfilled)
| RunSettles events call :
    Forall IsDispatch events ->
    (events = [] <-> dispatches = false) ->
    Run env dispatches (events ++ [Native call], Normal (gateway env call))
| RunTransfers events call request :
    Forall IsDispatch events ->
    (events = [] <-> dispatches = false) ->
    gateway env call = Fulfilled ->
    Run env dispatches
        (events ++ [Native call; Transfer request],
         Normal (scheduler env request)).

(** A result with more effects in front of its trace. *)
Definition prepend {A} (effects : list Effect) (r : list Effect * Completion A)
  : list Effect * Completion A :=
  let (t, c) := r in (effects ++ t, c).

(** ** Concrete documents and runs *)

Definition kinds : LayerKinds.t := {| LayerKinds.GROUP := 7; LayerKinds.GROUPEND := 13 |}.

Definition layerOne : Layer.t := Layer.mk 1 1 kinds false.
Definition layerTwo : Layer.t := Layer.mk 2 1 kinds false.
Definition backgroundLayer : Layer.t := Layer.mk 3 12 kinds true.
Definition groupEndOne : Layer.t := Layer.mk 4 13 kinds false.
Definition groupEndTwo : Layer.t := Layer.mk 5 13 kinds false.

Definition documentWith (first second : Bounds.t) : Document.t :=
  Document.mk 42 (Bounds.mk 0 0 600 800 800 600)
    (LayerStructure.mk
       (fun layer => if (Layer.id layer =? 1)%Z then first else second)
       (fun layer => [layer])
       [layerOne; layerTwo]
       false).

(** Two items of a list, one above the other:
    [{left:0, top:0, right:100, bottom:50}] and
    [{left:0, top:200, right:100, bottom:250}]. *)
Definition listDocument : Document.t :=
  documentWith (Bounds.mk 0 0 50 100 100 50) (Bounds.mk 200 0 250 100 100 50).

(** A number beside its list item, on the same line. *)
Definition rowDocument : Document.t :=
  documentWith (Bounds.mk 0 0 50 50 50 50) (Bounds.mk 0 200 50 300 100 50).

(** Two layers on a diagonal. *)
Definition diagonalDocument : Document.t :=
  documentWith (Bounds.mk 0 0 50 50 50 50) (Bounds.mk 200 200 300 300 100 100).

Definition acceptingEnv : Env :=
  {| gateway := fun _ => Fulfilled;
     scheduler := fun _ => Fulfilled;
     getCurrentDocument := Some listDocument |}.

Definition rejectingEnv : Env :=
  {| gateway := fun _ => Rejected (Error "native failure");
     scheduler := fun _ => Fulfilled;
     getCurrentDocument := Some listDocument |}.

(** The run of a horizontal flip of one ordinary layer. *)
Definition flipRun : list Effect * Completion Promise :=
  invoke (CallFlipX listDocument [layerOne]) acceptingEnv.

(** ** Reading play objects *)

(** The layer ids a list of references names. *)
Definition layerIdsOfRefs (refs : list Reference) : list Z :=
  flat_map (fun ref => match ref with
                       | LayerById id => [id]
                       | _ => []
                       end) refs.

(** The layer ids a play object addresses. *)
Fixpoint layerIdsOf (obj : PlayObject) : list Z :=
  match obj with
  | PlayTranslate ref _ _ => layerIdsOfRefs ref
  | PlaySelect ref => layerIdsOfRefs ref
  | PlaySetSize ref _ _ => layerIdsOfRefs ref
  | PlayFlip ref _ => layerIdsOfRefs [ref]
  | PlayRotate ref _ => layerIdsOfRefs ref
  | PlayDocumentResize _ _ => []
  | PlaySetRadius _ => []
  | PlayMerge object source => layerIdsOf object ++ layerIdsOf source
  end.

Definition layerIdsOfCall (call : NativeCall) : list Z :=
  match call with
  | playObject obj => layerIdsOf obj
  | batchPlayObjects objs _ => flat_map layerIdsOf objs
  end.

(** The document a transfer is made for. *)
Definition documentOf (request : TransferRequest) : Document.t :=
  match request with
  | ToResetLayers document _ => document
  | ToFlipX document _ => document
  | ToFlipY document _ => document
  | ToSwapLayers document _ => document
  | ToRotate document _ => document
  end.

Definition isReset (request : TransferRequest) : bool :=
  match request with
  | ToResetLayers _ _ => true
  | _ => false
  end.

(** The document a call is made on. *)
Definition documentOfCall (call : Invocation) : Document.t :=
  match call with
  | CallSetPosition document _ _ => document
  | CallSetSize document _ _ => document
  | CallSetBounds document _ _ => document
  | CallFlipX document _ => document
  | CallFlipY document _ => document
  | CallSwapLayers document _ => document
  | CallSetRadius document _ _ => document
  | CallRotate document _ => document
  end.

(** ** The carousel component *)

(** The first module of [src/js/jsx/shared/Carousel.jsx]: the state of
    the component and the handlers that navigate between its items. *)
Module Carousel.

Local Open Scope Q_scope.

(** The slide index is a JavaScript number. It stays an integer as long
    as the arithmetic is defined and is [NaN] once a remainder by zero
    has been taken. *)
Inductive number : Type :=
| Num (z : Z)
| NaN.

Definition add (a b : number) : number :=
  match a, b with
  | Num x, Num y => Num (x + y)
  | _, _ => NaN
  end.

Definition sub (a b : number) : number :=
  match a, b with
  | Num x, Num y => Num (x - y)
  | _, _ => NaN
  end.

(** [a % b]: the sign follows the dividend, and a zero divisor gives
    [NaN]. *)
Definition rem (a b : number) : number :=
  match a, b with
  | Num x, Num y => if (y =? 0)%Z then NaN else Num (Z.rem x y)
  | _, _ => NaN
  end.

Definition Math_min (a b : number) : number :=
  match a, b with
  | Num x, Num y => Num (Z.min x y)
  | _, _ => NaN
  end.

Definition Math_max (a b : number) : number :=
  match a, b with
  | Num x, Num y => Num (Z.max x y)
  | _, _ => NaN
  end.

(** [a > b], [a < b] and [a === b]; every comparison with [NaN] is
    false. *)
Definition gt (a b : number) : bool :=
  match a, b with
  | Num x, Num y => (y <? x)%Z
  | _, _ => false
  end.

Definition lt (a b : number) : bool :=
  match a, b with
  | Num x, Num y => (x <? y)%Z
  | _, _ => false
  end.

Definition strictEq (a b : number) : bool :=
  match a, b with
  | Num x, Num y => (x =? y)%Z
  | _, _ => false
  end.

Record Props (Node : Type) : Type := {
  items : list Node;
  wrapNavigation : bool;
  useContinueOnFirstSlide : bool;
  useDismissOnLastSlide : bool
}.
Arguments items {Node} _.
Arguments wrapNavigation {Node} _.
Arguments useContinueOnFirstSlide {Node} _.
Arguments useDismissOnLastSlide {Node} _.

Record State : Type := {
  index : number;
  direction : string
}.

Definition getInitialState : State :=
  {| index := Num 0; direction := "forward" |}.

(** [this.props.items.length]. *)
Definition items_length {Node} (props : Props Node) : number :=
  Num (Z.of_nat (List.length (items props))).

(** What a handler leaves behind: the state of the component, and
    whether [event.stopPropagation()] was called. *)
Record Handled : Type := {
  state : State;
  propagationStopped : bool
}.

Definition _gotoItem (this_state : State) (index : number) : Handled :=
  {| state := {| index := index;
                 direction := if gt (Carousel.index this_state) index
                              then "backward" else "forward" |};
     propagationStopped := true |}.

Definition _nextItem {Node} (props : Props Node) (this_state : State) : Handled :=
  let nextIndex :=
    if wrapNavigation props
    then rem (add (index this_state) (Num 1)) (items_length props)
    else Math_min (add (index this_state) (Num 1))
                  (sub (items_length props) (Num 1)) in
  _gotoItem this_state nextIndex.

Definition _prevItem {Node} (props : Props Node) (this_state : State) : Handled :=
  let prevIndex := sub (index this_state) (Num 1) in
  let prevIndex :=
    if wrapNavigation props && lt prevIndex (Num 0)
    then add (items_length props) prevIndex
    else Math_max prevIndex (Num 0) in
  _gotoItem this_state prevIndex.

(** [elt.getBoundingClientRect()] and the coordinates of a click. *)
Record ClientRect : Type := {
  rect_top : Q;
  rect_bottom : Q;
  rect_left : Q;
  rect_right : Q;
  rect_width : Q
}.

Record MouseEvent : Type := {
  clientX : Q;
  clientY : Q
}.

(** [elt] is [None] when the component has no DOM node. *)
Definition _handleClick {Node} (props : Props Node) (this_state : State)
    (elt : option ClientRect) (event : MouseEvent) : Handled :=
  match elt with
  | None => {| state := this_state; propagationStopped := false |}
  | Some bounds =>
    if Qle_bool (rect_top bounds) (clientY event)
       && Qle_bool (clientY event) (rect_bottom bounds)
       && Qle_bool (rect_left bounds) (clientX event)
    then
      let midpointX :=
        rect_left bounds + inject_Z (Qfloor (rect_width bounds / 2)) in
      if Qle_bool (clientX event) midpointX
      then _prevItem props this_state
      else if Qle_bool (clientX event) (rect_right bounds)
           then _nextItem props this_state
           else {| state := this_state; propagationStopped := false |}
    else {| state := this_state; propagationStopped := false |}
  end.

(** One dot of the navigation: its position among the items, whether
    it carries the class [current], and the index its click goes to. *)
Record NavDot : Type := {
  idx : nat;
  current : bool;
  dot_goto : number
}.

(** [None] is [undefined]: no navigation is built. *)
Definition _buildNav {Node} (props : Props Node) (this_state : State)
  : option (list NavDot) :=
  if negb (useContinueOnFirstSlide props && strictEq (index this_state) (Num 0))
  then
    Some (map (fun idx =>
                 {| idx := idx;
                    current := strictEq (Num (Z.of_nat idx)) (index this_state);
                    dot_goto := Num (Z.of_nat idx) |})
              (seq 0 (List.length (items props))))
  else None.

(** The three buttons the next-slide place can hold, with the index a
    click goes to; the last one dismisses the dialog. *)
Inductive NextButton : Type :=
| ContinueButton (goto : number)
| NextSlideButton (goto : number)
| GetStartedButton.

Definition _buildNextButton {Node} (props : Props Node) (this_state : State)
  : option NextButton :=
  if useContinueOnFirstSlide props && strictEq (index this_state) (Num 0)
  then Some (ContinueButton (Num 1))
  else if lt (index this_state) (sub (items_length props) (Num 1))
       then Some (NextSlideButton (add (index this_state) (Num 1)))
       else if useDismissOnLastSlide props
            then Some GetStartedButton
            else None.

(** The previous-slide button, as the index its click goes to. *)
Definition _buildPreviousButton (this_state : State) : option number :=
  if gt (index this_state) (Num 0)
  then Some (sub (index this_state) (Num 1))
  else None.

(** An index that names one of the items. *)
Definition InRange {Node} (props : Props Node) (n : number) : Prop :=
  exists i, n = Num i /\ (0 <= i < Z.of_nat (List.length (items props)))%Z.

End Carousel.

(** ** The export assets of a layer *)

(** The handler of [src/js/jsx/sections/export/LayerExports.jsx] that
    adds an asset to the selected layer. *)
Module LayerExports.

Local Open Scope Q_scope.

(** [allScales = [0.5, 1, 1.5, 2]]. *)
Definition allScales : list Q := [1 # 2; 1; 3 # 2; 2].

(** An export asset; [scale] is [None] when the asset has none. *)
Record ExportAsset : Type := {
  scale : option Q;
  suffix : string;
  format : string
}.

(** [_.difference(array, values)]: the elements of [array], in order,
    that are equal to no element of [values]. *)
Definition difference (array : list Q) (values : list (option Q)) : list Q :=
  filter (fun a =>
            negb (existsb (fun v => match v with
                                    | Some q => Qeq_bool a q
                                    | None => false
                                    end) values))
         array.

(** The arguments the handler passes on to [updateLayerAssetScale]
    after the document and the layer: the index of the new asset and
    its scale, [None] being [null]. The handler is given the export
    list of the layer, [None] when the layer has none yet; what
    [collection.pluck] makes of that missing list is decided outside
    these sources and comes in as [pluckMissing]. *)
Definition _addAssetClickHandler
    (pluckMissing : Completion (list (option Q)))
    (layerExports : option (list ExportAsset))
  : Completion (nat * option Q) :=
  let plucked :=
    match layerExports with
    | Some assets => Normal (map scale assets)
    | None => pluckMissing
    end in
  match plucked with
  | Throw exn => Throw exn
  | Normal scales =>
    let remainingScales := difference allScales scales in
    let nextScale := match remainingScales with
                     | first :: _ => Some first
                     | [] => None
                     end in
    let nextAssetIndex := match layerExports with
                          | Some assets => List.length assets
                          | None => 0%nat
                          end in
    Normal (nextAssetIndex, nextScale)
  end.

(** An asset of the list has the scale [t]. *)
Definition Used (assets : list ExportAsset) (t : Q) : Prop :=
  exists asset q, In asset assets /\ scale asset = Some q /\ t == q.

End LayerExports.

(** ** Further concrete inputs *)

Definition groupLayer : Layer.t := Layer.mk 6 7 kinds false.

(** A document with a group that holds the two ordinary layers; the
    group and its first child are selected. *)
Definition groupDocument : Document.t :=
  Document.mk 44 (Bounds.mk 0 0 600 800 800 600)
    (LayerStructure.mk
       (fun layer => if (Layer.id layer =? 2)%Z
                     then Bounds.mk 200 0 250 100 100 50
                     else Bounds.mk 0 0 50 100 100 50)
       (fun layer => if (Layer.id layer =? 6)%Z
                     then [groupLayer; layerOne; layerTwo]
                     else [layer])
       [groupLayer; layerOne]
       false).

(** A document whose selection is locked. *)
Definition lockedDocument : Document.t :=
  Document.mk 43 (Bounds.mk 0 0 600 800 800 600)
    (LayerStructure.mk
       (fun _ => Bounds.mk 0 0 50 100 100 50)
       (fun layer => [layer])
       [layerOne]
       true).

Definition lockedEnv : Env :=
  {| gateway := fun _ => Fulfilled;
     scheduler := fun _ => Fulfilled;
     getCurrentDocument := Some lockedDocument |}.

(** No document is open. *)
Definition emptyEnv : Env :=
  {| gateway := fun _ => Fulfilled;
     scheduler := fun _ => Fulfilled;
     getCurrentDocument := None |}.

(** A carousel of three slides that wraps, and one that does not. *)
Definition threeSlides : Carousel.Props string :=
  {| Carousel.items := ["one"; "two"; "three"]%string;
     Carousel.wrapNavigation := true;
     Carousel.useContinueOnFirstSlide := false;
     Carousel.useDismissOnLastSlide := true |}.

Definition clampedSlides : Carousel.Props string :=
  {| Carousel.items := ["one"; "two"; "three"]%string;
     Carousel.wrapNavigation := false;
     Carousel.useContinueOnFirstSlide := true;
     Carousel.useDismissOnLastSlide := false |}.

Definition firstSlide : Carousel.State := Carousel.getInitialState.

Definition lastSlide : Carousel.State :=
  {| Carousel.index := Carousel.Num 2; Carousel.direction := "forward" |}.

(** A layer exported at half size and at full size. *)
Definition twoAssets : list LayerExports.ExportAsset :=
  [ {| LayerExports.scale := Some (1 # 2)%Q;
       LayerExports.suffix := "@0.5x";
       LayerExports.format := "png" |};
    {| LayerExports.scale := Some 1%Q;
       LayerExports.suffix := "";
       LayerExports.format := "png" |} ].

(** Two boxes whose left edges are three tenths apart inside a combined
    box three wide, and whose other edges and centers are far apart. *)
Definition fractionDocument : Document.t :=
  documentWith (Bounds.mk 0 0 10 1 1 10)
               (Bounds.mk 100 (3 / 10) 110 3 (27 / 10) 10).

(** The same two boxes with the axes exchanged: the top edges are three
    tenths apart inside a combined box three high. *)
Definition fractionDocumentTransposed : Document.t :=
  documentWith (Bounds.mk 0 0 1 10 10 1)
               (Bounds.mk (3 / 10) 100 3 110 10 (27 / 10)).

(** * Properties *)

(** ** The swap-location heuristic *)

Section SwapLocations.

Variable document : Document.t.
Variables layerA layerB : Layer.t.
Variable sensitivity : option float.

Let l1 := LayerStructure.childBounds (Document.layers document) layerA.
Let l2 := LayerStructure.childBounds (Document.layers document) layerB.

Lemma close3_true (a b c : bool) :
  a || b || c = true <-> a = true \/ b = true \/ c = true.
Proof.
  rewrite !orb_true_iff. tauto.
Qed.

Lemma close3_false (a b c : bool) :
  a || b || c = false <-> ~ (a = true \/ b = true \/ c = true).
Proof.
  rewrite <- close3_true.
  destruct (a || b || c); split; congruence.
Qed.

(** C1. When the left edges, the right edges or the horizontal centers
    of the two bounding boxes differ by less than the combined width
    divided by the sensitivity (10 unless a truthy one is given), each
    layer keeps its own left as [x] and receives the other layer's top
    as [y]. Differences, quotient and comparison are those of the code,
    in binary64. *)
Theorem swap_vertical_edge_close :
  VerticalEdgeClose l1 l2 sensitivity ->
  _calculateSwapLocations document [layerA; layerB] sensitivity
  = Some (Position.mk (Some (Bounds.left l1)) (Some (Bounds.top l2)),
          Position.mk (Some (Bounds.left l2)) (Some (Bounds.top l1))).
Proof.
  intros Hclose.
  unfold VerticalEdgeClose in Hclose. apply close3_true in Hclose.
  unfold _calculateSwapLocations. cbn [nth_error].
  fold l1 l2. unfold widthFractionOf in Hclose.
  cbv zeta. rewrite Hclose. reflexivity.
Qed.

(** C2. When the vertical-edge-close rule does not apply: if the top
    edges, the bottom edges or the vertical centers differ by less than
    the combined height divided by the sensitivity, each layer keeps its
    top and its new left is combinedLeft + combinedRight - its right;
    otherwise the two layers exchange their top-left corners. *)
Theorem swap_remaining_rules :
  ~ VerticalEdgeClose l1 l2 sensitivity ->
  let combinedLeft := Math_min (Bounds.left l1) (Bounds.left l2) in
  let combinedRight := Math_max (Bounds.right l1) (Bounds.right l2) in
  (HorizontalEdgeClose l1 l2 sensitivity ->
   _calculateSwapLocations document [layerA; layerB] sensitivity
   = Some (Position.mk (Some (combinedLeft + combinedRight - Bounds.right l1))
                       (Some (Bounds.top l1)),
           Position.mk (Some (combinedLeft + combinedRight - Bounds.right l2))
                       (Some (Bounds.top l2))))
  /\ (~ HorizontalEdgeClose l1 l2 sensitivity ->
      _calculateSwapLocations document [layerA; layerB] sensitivity
      = Some (Position.mk (Some (Bounds.left l2)) (Some (Bounds.top l2)),
              Position.mk (Some (Bounds.left l1)) (Some (Bounds.top l1)))).
Proof.
  intros Hfar combinedLeft combinedRight.
  unfold VerticalEdgeClose in Hfar.
  apply close3_false in Hfar. unfold widthFractionOf in Hfar.
  split; intros Hh; unfold HorizontalEdgeClose in Hh;
    [apply close3_true in Hh | apply close3_false in Hh];
    unfold heightFractionOf in Hh;
    unfold _calculateSwapLocations; cbn [nth_error]; fold l1 l2;
    cbv zeta; rewrite Hfar, Hh; reflexivity.
Qed.

End SwapLocations.

Ltac run_command :=
  cbv beta iota zeta delta
    [bind ret throw dispatch log_error transfer then_ Promise_resolve
     descriptor.playObject descriptor.batchPlayObjects
     applicationStore_getCurrentDocument app fst snd].

(** ** Preconditions checked before anything is done *)

Section Preconditions.

Variable env : Env.
Variable document : Document.t.

Lemma find_none_of_all_background (layers : list Layer.t) :
  Forall (fun l => Layer.isBackground l = true) layers ->
  find (fun l => negb (Layer.isBackground l)) layers = None.
Proof.
  induction 1 as [|l ls Hl _ IH]; cbn; [reflexivity|].
  rewrite Hl. exact IH.
Qed.

(** C4. A flip over a layer set without any non-background layer (the
    empty set included) throws synchronously, with an empty trace: no
    play object reaches the gateway. *)
Theorem flip_requires_non_background (layers : list Layer.t) (axis : string) :
  Forall (fun l => Layer.isBackground l = true) layers ->
  exists message,
    flipCommand document layers axis env = ([], Throw (Error message))
    /\ natives (fst (flipCommand document layers axis env)) = [].
Proof.
  intros Hall. unfold flipCommand.
  destruct layers as [|l ls].
  - exists "Expected at least one layer"%string. split; reflexivity.
  - cbn [List.length Nat.ltb Nat.leb].
    rewrite (find_none_of_all_background _ Hall).
    exists "flip was not provided a valid non-background layer"%string.
    split; reflexivity.
Qed.

(** C5. A swap over a layer set whose size is not two throws
    synchronously with an empty trace; over two group-end layers it
    resolves with an empty trace. *)
Theorem swapLayers_preconditions (layers : list Layer.t) :
  (List.length layers <> 2%nat ->
   swapLayersCommand document layers env
   = ([], Throw (Error "Expected two layers")))
  /\ (forall layerA layerB,
        layers = [layerA; layerB] ->
        isGroupEnd layerA = true -> isGroupEnd layerB = true ->
        swapLayersCommand document layers env = ([], Normal Fulfilled)).
Proof.
  split.
  - intros Hsize. unfold swapLayersCommand.
    apply Nat.eqb_neq in Hsize. rewrite Hsize. reflexivity.
  - intros layerA layerB -> HA HB. unfold swapLayersCommand.
    cbn [List.length Nat.eqb negb forallb]. rewrite HA, HB. reflexivity.
Qed.

(** C9. Without an [angle] in the payload the rotate-in-current-document
    action logs the error and resolves; the log entry is its only
    effect. *)
Theorem rotate_missing_angle (payload : RotatePayload) :
  angle payload = None ->
  rotateLayersInCurrentDocumentCommand payload env
  = ([LogError "Missing angle"], Normal Fulfilled).
Proof.
  intros Hangle. unfold rotateLayersInCurrentDocumentCommand.
  rewrite Hangle. reflexivity.
Qed.

End Preconditions.

(** ** The native calls of the sizing and positioning commands *)

Section NativeCalls.

Variable env : Env.
Variable document : Document.t.

(** C6. When no layer is left after the group-end entries are filtered
    out, the size command issues exactly one native call, the document
    resize built from the given width and height (the document's own
    bounds standing in for an absent one); the only other effect is the
    document-resize event before it. *)
Theorem setSize_without_layers (layerSpec : list Layer.t) (size : Size.t) :
  filterNotGroupEnd layerSpec = [] ->
  let newWidth := match Size.w size with
                  | Some w => w
                  | None => Bounds.width (Document.bounds document)
                  end in
  let newHeight := match Size.h size with
                   | Some h => h
                   | None => Bounds.height (Document.bounds document)
                   end in
  let resizeCall :=
    playObject (PlayDocumentResize (unitLib.pixels newWidth)
                                   (unitLib.pixels newHeight)) in
  setSizeCommand document layerSpec size env
  = ([Dispatch RESIZE_DOCUMENT (SizePayload (Document.id document) [] size);
      Native resizeCall],
     Normal (gateway env resizeCall))
  /\ natives (fst (setSizeCommand document layerSpec size env)) = [resizeCall].
Proof.
  intros Hempty newWidth newHeight resizeCall.
  assert (Hrun : setSizeCommand document layerSpec size env
                 = ([Dispatch RESIZE_DOCUMENT
                       (SizePayload (Document.id document) [] size);
                     Native resizeCall],
                    Normal (gateway env resizeCall))).
  { unfold setSizeCommand. rewrite Hempty. reflexivity. }
  split; [exact Hrun | rewrite Hrun; reflexivity].
Qed.

(** C7. When exactly one layer is left after the group-end entries are
    filtered out, the position command issues exactly one native call:
    the translate play object addressed to that layer of the document,
    by the distance from its current top-left to the requested one. *)
Theorem setPosition_single_layer
    (layerSpec : list Layer.t) (position : Position.t) (layer : Layer.t) :
  filterNotGroupEnd layerSpec = [layer] ->
  let childBounds := LayerStructure.childBounds (Document.layers document) layer in
  let newX := match Position.x position with
              | Some x => x
              | None => Bounds.left childBounds
              end in
  let newY := match Position.y position with
              | Some y => y
              | None => Bounds.top childBounds
              end in
  natives (fst (setPositionCommand document layerSpec position env))
  = [playObject
       (PlayTranslate
          [DocumentById (Document.id document); LayerById (Layer.id layer)]
          (unitLib.pixels (newX - Bounds.left childBounds))
          (unitLib.pixels (newY - Bounds.top childBounds)))].
Proof.
  intros Hone childBounds newX newY.
  unfold setPositionCommand. rewrite Hone. run_command.
  destruct (gateway env _); [destruct (_transformingAnyGroups _)|]; reflexivity.
Qed.

(** The layers a reset is transferred over are exactly the descendants
    of the given layers, each once. *)
Lemma allDescendants_spec (layers : list Layer.t) (layer : Layer.t) :
  In layer (allDescendants document layers)
  <-> exists parent,
        In parent layers
        /\ In layer (LayerStructure.descendants (Document.layers document) parent).
Proof.
  unfold allDescendants, toSet. rewrite nodup_In, in_flat_map. reflexivity.
Qed.

Lemma allDescendants_NoDup (layers : list Layer.t) :
  NoDup (allDescendants document layers).
Proof. apply NoDup_nodup. Qed.

(** C8. The bounds command issues exactly one native call, the merged
    translate and resize of the current layer by the stated deltas to
    the new width and height; when that call is fulfilled, the command
    transfers to the reset of layers and settles as that transfer does,
    and the layers handed over are the descendants of the selected
    layers: each of them a descendant of a selected layer, every
    descendant of every selected layer among them, none twice. *)
Theorem setBounds_single_call (oldBounds newBounds : Bounds.t) :
  let layerRef := [DocumentById (Document.id document); LayerCurrent] in
  let xDelta :=
    Bounds.left newBounds - Bounds.left oldBounds
    + (Bounds.width newBounds - Bounds.width oldBounds) / 2 in
  let yDelta :=
    Bounds.top newBounds - Bounds.top oldBounds
    + (Bounds.height newBounds - Bounds.height oldBounds) / 2 in
  let call :=
    playObject
      (PlayMerge
         (PlayTranslate layerRef (unitLib.pixels xDelta) (unitLib.pixels yDelta))
         (PlaySetSize layerRef (unitLib.pixels (Bounds.width newBounds))
                               (unitLib.pixels (Bounds.height newBounds)))) in
  natives (fst (setBoundsCommand document oldBounds newBounds env)) = [call]
  /\ (gateway env call = Fulfilled ->
      exists descendants,
        setBoundsCommand document oldBounds newBounds env
        = ([Native call; Transfer (ToResetLayers document descendants)],
           Normal (scheduler env (ToResetLayers document descendants)))
        /\ NoDup descendants
        /\ forall layer,
             In layer descendants
             <-> exists selected,
                   In selected
                      (LayerStructure.selected (Document.layers document))
                   /\ In layer
                        (LayerStructure.descendants
                           (Document.layers document) selected)).
Proof.
  intros layerRef xDelta yDelta call.
  unfold setBoundsCommand. run_command. fold layerRef xDelta yDelta.
  change (gateway env (playObject _)) with (gateway env call).
  destruct (gateway env call) eqn:Hcall; split;
    try reflexivity; intros H; try discriminate.
  eexists. split; [reflexivity|]. split.
  - apply allDescendants_NoDup.
  - apply allDescendants_spec.
Qed.

End NativeCalls.

(** ** The failure policy of the commands that reach the gateway *)

Create HintDb run.

Section FailurePolicy.

Variable env : Env.

Lemma prepend_prepend {A} (a b : list Effect) (r : list Effect * Completion A) :
  prepend a (prepend b r) = prepend (a ++ b) r.
Proof. destruct r as [t c]. cbn. rewrite app_assoc. reflexivity. Qed.

Lemma bind_dispatch {A} event payload (k : M A) :
  bind (dispatch event payload) (fun _ => k) env
  = prepend [Dispatch event payload] (k env).
Proof. unfold bind, dispatch, prepend. destruct (k env). reflexivity. Qed.

Lemma bind_playObject obj (k : Promise -> M Promise) :
  bind (descriptor.playObject obj) k env
  = prepend [Native (playObject obj)] (k (gateway env (playObject obj)) env).
Proof.
  unfold bind, descriptor.playObject, prepend.
  destruct (k _ env). reflexivity.
Qed.

Lemma bind_batchPlayObjects objs options (k : Promise -> M Promise) :
  bind (descriptor.batchPlayObjects objs options) k env
  = prepend [Native (batchPlayObjects objs options)]
            (k (gateway env (batchPlayObjects objs options)) env).
Proof.
  unfold bind, descriptor.batchPlayObjects, prepend.
  destruct (k _ env). reflexivity.
Qed.

Lemma IsDispatch_intro event payload : IsDispatch (Dispatch event payload).
Proof. exists event, payload. reflexivity. Qed.

Lemma no_events_iff : ([] : list Effect) = [] <-> false = false.
Proof. split; reflexivity. Qed.

Lemma some_events_iff (e : Effect) (es : list Effect) :
  e :: es = [] <-> true = false.
Proof. split; discriminate. Qed.

Hint Resolve IsDispatch_intro no_events_iff some_events_iff : run.

(** A native call followed by [then], after the events. *)
Lemma run_then (dispatches : bool) events call (callback : M Promise) :
  Forall IsDispatch events ->
  (events = [] <-> dispatches = false) ->
  (callback env = ([], Normal Fulfilled)
   \/ exists request,
        callback env = ([Transfer request], Normal (scheduler env request))) ->
  Run env dispatches
      (prepend (events ++ [Native call]) (then_ (gateway env call) callback env)).
Proof.
  intros Hev Hiff Hcb. unfold then_.
  destruct (gateway env call) eqn:Hcall.
  - destruct Hcb as [-> | [request ->]]; cbn.
    + rewrite app_nil_r, <- Hcall. apply RunSettles; assumption.
    + rewrite <- app_assoc. apply RunTransfers; assumption.
  - cbn. rewrite app_nil_r, <- Hcall. apply RunSettles; assumption.
Qed.

Lemma callback_if_groups (b : bool) (request : TransferRequest) :
  (if b then transfer request else ret Fulfilled) env = ([], Normal Fulfilled)
  \/ exists r,
       (if b then transfer request else ret Fulfilled) env
       = ([Transfer r], Normal (scheduler env r)).
Proof.
  destruct b; [right; exists request | left]; reflexivity.
Qed.

Lemma callback_transfer (request : TransferRequest) :
  transfer request env = ([], Normal Fulfilled)
  \/ exists r, transfer request env = ([Transfer r], Normal (scheduler env r)).
Proof. right. exists request. reflexivity. Qed.

Hint Resolve callback_if_groups callback_transfer : run.

Ltac normalise_run :=
  repeat rewrite bind_dispatch;
  repeat (rewrite bind_playObject || rewrite bind_batchPlayObjects);
  repeat rewrite prepend_prepend.

Lemma flipCommand_run document layers axis :
  Run env false (flipCommand document layers axis env).
Proof.
  unfold flipCommand.
  destruct (List.length layers <? 1)%nat; [apply RunThrows|].
  destruct (find _ layers) as [repLayer|]; [|apply RunThrows].
  normalise_run. apply (run_then false []); auto with run.
Qed.

Lemma invoke_run (call : Invocation) :
  Run env (dispatchesEvent call) (invoke call env).
Proof.
  destruct call; cbn [invoke command dispatchesEvent setPosition setSize
    setBounds flipX flipY swapLayers setRadius rotate].
  - unfold setPositionCommand.
    destruct (filterNotGroupEnd layerSpec) as [|layer [|layer' rest]];
      normalise_run; apply (run_then true [_]); auto with run.
  - unfold setSizeCommand.
    destruct (filterNotGroupEnd layerSpec) as [|layer [|layer' rest]];
      normalise_run.
    + unfold descriptor.playObject, prepend.
      apply (RunSettles env true [_]); auto with run.
    + apply (run_then true [_]); auto with run.
    + apply (run_then true [_]); auto with run.
  - unfold setBoundsCommand. normalise_run.
    apply (run_then false []); auto with run.
  - apply flipCommand_run.
  - apply flipCommand_run.
  - unfold swapLayersCommand.
    destruct (negb _); [apply RunThrows|].
    destruct (forallb _ _); [apply RunNothing|].
    destruct (_calculateSwapLocations _ _ _) as [[p0 p1]|]; [|apply RunThrows].
    destruct (nth_error layers 0); [|apply RunThrows].
    destruct (nth_error layers 1); [|apply RunThrows].
    normalise_run. apply (run_then true [_; _]); auto with run.
  - unfold setRadiusCommand. normalise_run.
    unfold descriptor.playObject, prepend.
    apply (RunSettles env true [_]); auto with run.
  - unfold rotateCommand. normalise_run.
    apply (run_then false []); auto with run.
Qed.

End FailurePolicy.

Section FailurePolicyTheorem.

Variable env : Env.

Lemma natives_events (events rest : list Effect) :
  Forall IsDispatch events -> natives (events ++ rest) = natives rest.
Proof.
  induction 1 as [|e es [event [payload ->]] _ IH]; cbn; auto.
Qed.

Lemma dispatched_app (t1 t2 : list Effect) :
  dispatched (t1 ++ t2) = dispatched t1 ++ dispatched t2.
Proof.
  induction t1 as [|[event payload|call|request|message] t1 IH]; cbn;
    rewrite ?IH; reflexivity.
Qed.

Lemma in_natives (trace : list Effect) (native : NativeCall) :
  In (Native native) trace <-> In native (natives trace).
Proof.
  induction trace as [|[event payload|call|request|message] rest IH]; cbn;
    try tauto.
  - rewrite <- IH. split; [intros [H|H]; [discriminate|exact H] | auto].
  - rewrite <- IH. split; intros [H|H]; auto; left; congruence.
  - rewrite <- IH. split; [intros [H|H]; [discriminate|exact H] | auto].
  - rewrite <- IH. split; [intros [H|H]; [discriminate|exact H] | auto].
Qed.

(** C3, as the commands have it. Whenever one of the commands issues a
    native call, that call is its only one; everything before it in the
    trace is a dispatched event (at least one for setPosition, setSize,
    swapLayers and setRadius, none for setBounds, flipX, flipY and
    rotate) and nothing but at most one transfer follows it, so that
    every event the command dispatches is dispatched before the call; if
    the gateway rejects the call, nothing follows it and the command's
    promise is rejected with the gateway's reason; a transfer follows
    the call only when the gateway fulfilled it, and the command then
    settles as the transfer does; without a transfer the command
    settles as the call did. *)
Theorem native_failure_policy (call : Invocation) (native : NativeCall) :
  In (Native native) (fst (invoke call env)) ->
  exists events after,
    fst (invoke call env) = events ++ Native native :: after
    /\ Forall IsDispatch events
    /\ (events = [] <-> dispatchesEvent call = false)
    /\ natives (fst (invoke call env)) = [native]
    /\ (forall reason,
          gateway env native = Rejected reason ->
          after = [] /\ snd (invoke call env) = Normal (Rejected reason))
    /\ (forall request,
          In (Transfer request) after ->
          gateway env native = Fulfilled /\ after = [Transfer request])
    /\ (after = [] \/ exists request, after = [Transfer request])
    /\ dispatched after = []
    /\ dispatched (fst (invoke call env)) = dispatched events
    /\ (after = [] -> snd (invoke call env) = Normal (gateway env native))
    /\ (forall request,
          after = [Transfer request] ->
          snd (invoke call env) = Normal (scheduler env request)).
Proof.
  intros Hin. apply in_natives in Hin.
  pose proof (invoke_run env call) as Hrun.
  destruct Hrun as [exn | | events c Hev Hiff | events c request Hev Hiff Hok];
    cbn [fst snd] in *.
  - destruct Hin.
  - destruct Hin.
  - rewrite natives_events in Hin by assumption.
    destruct Hin as [->|[]].
    exists events, []. repeat split; try tauto.
    + rewrite natives_events by assumption. reflexivity.
    + congruence.
    + destruct H.
    + destruct H.
    + rewrite dispatched_app. cbn. apply app_nil_r.
    + discriminate.
  - rewrite natives_events in Hin by assumption.
    destruct Hin as [->|[]].
    exists events, [Transfer request]. repeat split; try tauto.
    + rewrite natives_events by assumption. reflexivity.
    + congruence.
    + congruence.
    + destruct H as [H|[]]. congruence.
    + right. exists request. reflexivity.
    + rewrite dispatched_app. cbn. apply app_nil_r.
    + discriminate.
    + intros request' H. injection H as <-. reflexivity.
Qed.

End FailurePolicyTheorem.

(** ** The lock declarations of the exported actions *)

(** C10. The exports are the twelve actions; each declares the writes
    PS_DOC and JS_DOC, every write is among its reads, and the reads are
    the same two locks, with JS_APP added for the four actions on the
    current document. *)
Theorem exported_lock_declarations :
  map fst exports
  = [ "setPosition"; "setSize"; "flipX"; "flipY"; "flipXCurrentDocument";
      "flipYCurrentDocument"; "swapLayers"; "swapLayersCurrentDocument";
      "setRadius"; "setBounds"; "rotate";
      "rotateLayersInCurrentDocument" ]%string
  /\ Forall
       (fun '(name, locks) =>
          lock_writes locks = [PS_DOC; JS_DOC]
          /\ incl (lock_writes locks) (lock_reads locks)
          /\ lock_reads locks
             = if existsb (String.eqb name)
                    [ "flipXCurrentDocument"; "flipYCurrentDocument";
                      "swapLayersCurrentDocument";
                      "rotateLayersInCurrentDocument" ]%string
               then [PS_DOC; JS_DOC; JS_APP]
               else [PS_DOC; JS_DOC])
       exports.
Proof.
  split; [reflexivity|].
  unfold exports.
  repeat (apply Forall_cons;
          [split; [reflexivity | split; [|reflexivity]];
           intros l [<-|[<-|[]]]; cbn; auto |]).
  apply Forall_nil.
Qed.

(** ** The theorems at concrete inputs *)

(** The two list items: left and right edges coincide, so the tops are
    exchanged and the lefts stay. With the sensitivity 1 the layers on
    a diagonal, 200 apart in a box 300 wide, count as close as well. *)
Lemma swap_vertical_edge_close_witness :
  _calculateSwapLocations listDocument [layerOne; layerTwo] None
  = Some (Position.mk (Some 0) (Some 200), Position.mk (Some 0) (Some 0))
  /\ _calculateSwapLocations diagonalDocument [layerOne; layerTwo] (Some 1)
     = Some (Position.mk (Some 0) (Some 200), Position.mk (Some 200) (Some 0)).
Proof.
  split.
  - apply (swap_vertical_edge_close listDocument layerOne layerTwo None).
    left. vm_compute. reflexivity.
  - apply (swap_vertical_edge_close diagonalDocument layerOne layerTwo (Some 1)).
    left. vm_compute. reflexivity.
Defined.

(** Layers on one line are mirrored inside the combined box; layers on
    a diagonal exchange their corners. *)
Lemma swap_remaining_rules_witness :
  _calculateSwapLocations rowDocument [layerOne; layerTwo] None
  = Some (Position.mk (Some 250) (Some 0), Position.mk (Some 0) (Some 0))
  /\ _calculateSwapLocations diagonalDocument [layerOne; layerTwo] None
     = Some (Position.mk (Some 200) (Some 200), Position.mk (Some 0) (Some 0)).
Proof.
  split.
  - apply (swap_remaining_rules rowDocument layerOne layerTwo None).
    + intros [H|[H|H]]; vm_compute in H; discriminate H.
    + left. vm_compute. reflexivity.
  - apply (swap_remaining_rules diagonalDocument layerOne layerTwo None).
    + intros [H|[H|H]]; vm_compute in H; discriminate H.
    + intros [H|[H|H]]; vm_compute in H; discriminate H.
Defined.

(** A non-zero sensitivity replaces the default, and zero does not:
    with 1, edges 200 apart in a box 300 wide count as close. *)
Example swap_with_sensitivity :
  _calculateSwapLocations diagonalDocument [layerOne; layerTwo] (Some 1)
  = Some (Position.mk (Some 0) (Some 200), Position.mk (Some 200) (Some 0))
  /\ _calculateSwapLocations diagonalDocument [layerOne; layerTwo] (Some 0)
     = _calculateSwapLocations diagonalDocument [layerOne; layerTwo] None.
Proof. split; reflexivity. Qed.

(** Rounding decides: the left edges are 3 / 10 apart and the width
    fraction is 3 / 10 too, both rounded to the same binary64 number, so
    the edges are not closer than the fraction and the corners are
    exchanged. *)
Example swap_edges_a_fraction_apart :
  widthFractionOf
    (LayerStructure.childBounds (Document.layers fractionDocument) layerOne)
    (LayerStructure.childBounds (Document.layers fractionDocument) layerTwo)
    None
  = 3 / 10
  /\ _calculateSwapLocations fractionDocument [layerOne; layerTwo] None
     = Some (Position.mk (Some (3 / 10)) (Some 100),
             Position.mk (Some 0) (Some 0)).
Proof. split; reflexivity. Qed.

(** The same along the other axis: top edges 3 / 10 apart in a box
    three high are not closer than the height fraction, no rule applies
    and the corners are exchanged. *)
Example swap_tops_a_fraction_apart :
  heightFractionOf
    (LayerStructure.childBounds (Document.layers fractionDocumentTransposed)
                                layerOne)
    (LayerStructure.childBounds (Document.layers fractionDocumentTransposed)
                                layerTwo)
    None
  = 3 / 10
  /\ _calculateSwapLocations fractionDocumentTransposed [layerOne; layerTwo] None
     = Some (Position.mk (Some 100) (Some (3 / 10)),
             Position.mk (Some 0) (Some 0)).
Proof. split; reflexivity. Qed.

(** C3, as stated, fails on flip: the command issues its native call
    and no event is dispatched before it, or at all. *)
Lemma flip_native_call_without_event :
  natives (fst flipRun) = [playObject (PlayFlip (LayerById 1) "horizontal")]
  /\ dispatchedBeforeNative (fst flipRun) = false
  /\ dispatched (fst flipRun) = [].
Proof. repeat split; reflexivity. Qed.

(** A rejected translate: the rejection reaches the caller as it is. *)
Lemma native_failure_policy_witness :
  In (Native (playObject
                (PlayTranslate [DocumentById 42; LayerById 1]
                               (unitLib.pixels (10 - 0)) (unitLib.pixels (0 - 0)))))
     (fst (invoke (CallSetPosition listDocument [layerOne]
                                   (Position.mk (Some 10) None))
                  rejectingEnv))
  /\ snd (invoke (CallSetPosition listDocument [layerOne]
                                  (Position.mk (Some 10) None))
                 rejectingEnv)
     = Normal (Rejected (Error "native failure")).
Proof.
  assert (Hin : In (Native (playObject
                (PlayTranslate [DocumentById 42; LayerById 1]
                               (unitLib.pixels (10 - 0)) (unitLib.pixels (0 - 0)))))
     (fst (invoke (CallSetPosition listDocument [layerOne]
                                   (Position.mk (Some 10) None))
                  rejectingEnv))).
  { right. left. reflexivity. }
  split; [exact Hin|].
  destruct (native_failure_policy rejectingEnv _ _ Hin)
    as (events & after & _ & _ & _ & _ & Hrejected & _).
  apply (Hrejected (Error "native failure")). reflexivity.
Defined.

(** Flipping the background layer alone throws. *)
Lemma flip_requires_non_background_witness :
  exists message,
    flipCommand listDocument [backgroundLayer] "vertical" acceptingEnv
    = ([], Throw (Error message))
    /\ natives (fst (flipCommand listDocument [backgroundLayer] "vertical"
                                 acceptingEnv)) = [].
Proof.
  apply (flip_requires_non_background acceptingEnv listDocument
           [backgroundLayer] "vertical").
  constructor; [reflexivity | constructor].
Defined.

(** One layer is refused; two group ends are left alone. *)
Lemma swapLayers_preconditions_witness :
  swapLayersCommand listDocument [layerOne] acceptingEnv
  = ([], Throw (Error "Expected two layers"))
  /\ swapLayersCommand listDocument [groupEndOne; groupEndTwo] acceptingEnv
     = ([], Normal Fulfilled).
Proof.
  split.
  - apply (swapLayers_preconditions acceptingEnv listDocument [layerOne]).
    discriminate.
  - apply (proj2 (swapLayers_preconditions acceptingEnv listDocument
                    [groupEndOne; groupEndTwo])
             groupEndOne groupEndTwo); reflexivity.
Defined.

(** A payload without an angle. *)
Lemma rotate_missing_angle_witness :
  rotateLayersInCurrentDocumentCommand {| angle := None |} acceptingEnv
  = ([LogError "Missing angle"], Normal Fulfilled).
Proof.
  apply (rotate_missing_angle acceptingEnv {| angle := None |}). reflexivity.
Defined.

(** Only a group end is given and only a width: the document is resized
    to that width and its own height. *)
Lemma setSize_without_layers_witness :
  natives (fst (setSizeCommand listDocument [groupEndOne]
                               (Size.mk (Some 640) None) acceptingEnv))
  = [playObject (PlayDocumentResize (unitLib.pixels 640) (unitLib.pixels 600))].
Proof.
  apply (setSize_without_layers acceptingEnv listDocument [groupEndOne]
           (Size.mk (Some 640) None)).
  reflexivity.
Defined.

(** A group end and one layer, moved to a new top. *)
Lemma setPosition_single_layer_witness :
  natives (fst (setPositionCommand listDocument [groupEndOne; layerTwo]
                                   (Position.mk None (Some 20)) acceptingEnv))
  = [playObject
       (PlayTranslate [DocumentById 42; LayerById 2]
                      (unitLib.pixels (0 - 0)) (unitLib.pixels (20 - 200)))].
Proof.
  apply (setPosition_single_layer acceptingEnv listDocument
           [groupEndOne; layerTwo] (Position.mk None (Some 20)) layerTwo).
  reflexivity.
Defined.

(** The group and one of its children are selected: the reset goes
    over the group's descendants, the unselected child among them, none
    twice. *)
Lemma setBounds_single_call_witness :
  exists descendants,
    transfers (fst (setBoundsCommand groupDocument
                      (Bounds.mk 0 0 50 100 100 50)
                      (Bounds.mk 10 20 110 220 200 100)
                      acceptingEnv))
    = [ToResetLayers groupDocument descendants]
    /\ In layerTwo descendants
    /\ NoDup descendants.
Proof.
  destruct (proj2 (setBounds_single_call acceptingEnv groupDocument
                     (Bounds.mk 0 0 50 100 100 50)
                     (Bounds.mk 10 20 110 220 200 100))
              eq_refl)
    as (descendants & Hrun & Hnodup & Hmember).
  exists descendants. rewrite Hrun. split; [reflexivity|]. split.
  - apply Hmember. exists groupLayer. split; [left; reflexivity|].
    right. right. left. reflexivity.
  - exact Hnodup.
Defined.

(** * Further properties of the transform commands *)

(** ** Facts of binary64 arithmetic *)

Section Spec.

Variables prec emax : Z.

Lemma SFabs_binary_round (s : bool) (m : positive) (e : Z) :
  SFabs (binary_round prec emax s m e) = SFabs (binary_round prec emax false m e).
Proof.
  unfold binary_round.
  destruct (shl_align m e _) as [mz ez].
  unfold binary_round_aux.
  destruct (shr_fexp prec emax (Zpos mz) ez loc_Exact) as [mrs' e'].
  destruct (shr_fexp prec emax _ e' loc_Exact) as [mrs'' e''].
  destruct (shr_m mrs''); [reflexivity | | reflexivity].
  destruct (Z.leb e'' _); reflexivity.
Qed.

Lemma SFabs_binary_normalize_opp (m e : Z) :
  SFabs (binary_normalize prec emax (- m) e false)
  = SFabs (binary_normalize prec emax m e false).
Proof.
  destruct m as [|p|p]; cbn [Z.opp binary_normalize]; [reflexivity | |].
  - apply SFabs_binary_round.
  - symmetry. apply SFabs_binary_round.
Qed.

Lemma SFsub_abs_sym (x y : spec_float) :
  SFabs (SFsub prec emax x y) = SFabs (SFsub prec emax y x).
Proof.
  destruct x as [sx|sx| |sx mx ex], y as [sy|sy| |sy my ey];
    try reflexivity;
    try (destruct sx, sy; reflexivity).
  cbn [SFsub]. rewrite (Z.min_comm ey ex).
  rewrite <- SFabs_binary_normalize_opp. f_equal. f_equal. lia.
Qed.

Lemma SFsub_diag (x : spec_float) :
  match x with
  | S754_zero _ | S754_finite _ _ _ => SFsub prec emax x x = S754_zero false
  | _ => True
  end.
Proof.
  destruct x as [s|s| |s m e]; try exact I.
  - destruct s; reflexivity.
  - cbn [SFsub]. rewrite Z.sub_diag. reflexivity.
Qed.

Lemma SFcompare_antisym (x y : spec_float) :
  SFcompare y x = option_map CompOpp (SFcompare x y).
Proof.
  destruct x as [sx|sx| |sx mx ex], y as [sy|sy| |sy my ey];
    try reflexivity;
    try (destruct sx; reflexivity);
    try (destruct sy; reflexivity);
    try (destruct sx, sy; reflexivity).
  cbn [SFcompare option_map]. f_equal.
  destruct sx, sy; try reflexivity;
    rewrite (Z.compare_antisym ex ey);
    destruct (Z.compare ex ey) eqn:E; cbn [CompOpp]; try reflexivity;
    rewrite !Pos.compare_cont_spec; cbn [Pos.switch_Eq];
    rewrite (Pos.compare_antisym mx my);
    destruct (Pos.compare mx my); reflexivity.
Qed.

Lemma SFcompare_eq (x y : spec_float) :
  SFcompare x y = Some Eq ->
  x = y \/ exists s s', x = S754_zero s /\ y = S754_zero s'.
Proof.
  destruct x as [sx|sx| |sx mx ex], y as [sy|sy| |sy my ey]; cbn [SFcompare];
    try discriminate;
    try (destruct sx; discriminate);
    try (destruct sy; discriminate).
  - intros _. right. eauto.
  - destruct sx, sy; try discriminate; intros _; left; reflexivity.
  - destruct sx, sy; try discriminate;
      destruct (Z.compare ex ey) eqn:E; try discriminate;
      apply Z.compare_eq in E; subst ey;
      rewrite Pos.compare_cont_spec; cbn [Pos.switch_Eq];
      destruct (Pos.compare mx my) eqn:E'; try discriminate;
      apply Pos.compare_eq in E'; subst my; intros _; left; reflexivity.
Qed.

End Spec.

Lemma abs_sub_sym (a b : float) : PrimFloat.abs (a - b) = PrimFloat.abs (b - a).
Proof.
  apply FloatAxioms.Prim2SF_inj. rewrite !FloatAxioms.abs_spec, !FloatAxioms.sub_spec. apply SFsub_abs_sym.
Qed.

Lemma not_nan (a : float) :
  PrimFloat.is_nan a = false -> Prim2SF a <> S754_nan.
Proof.
  unfold PrimFloat.is_nan. rewrite FloatAxioms.eqb_spec. intros H Hnan.
  rewrite Hnan in H. discriminate.
Qed.

Lemma ltb_asym (a b : float) : (a <? b) = true -> (b <? a) = false.
Proof.
  rewrite !FloatAxioms.ltb_spec. unfold SFltb. rewrite (SFcompare_antisym (Prim2SF a)).
  destruct (SFcompare (Prim2SF a) (Prim2SF b)) as [[]|]; cbn; congruence.
Qed.

Lemma zero_cases (a : float) (s : bool) :
  Prim2SF a = S754_zero s -> a = if s then PrimFloat.neg_zero else PrimFloat.zero.
Proof.
  intros H. rewrite <- (FloatAxioms.SF2Prim_Prim2SF a), H. destruct s; reflexivity.
Qed.

Lemma ltb_neither (a b : float) :
  PrimFloat.is_nan a = false -> PrimFloat.is_nan b = false ->
  (a <? b) = false -> (b <? a) = false ->
  a = b
  \/ ((a = PrimFloat.zero \/ a = PrimFloat.neg_zero)
      /\ (b = PrimFloat.zero \/ b = PrimFloat.neg_zero)).
Proof.
  intros Ha Hb. apply not_nan in Ha, Hb.
  rewrite !FloatAxioms.ltb_spec. unfold SFltb. rewrite (SFcompare_antisym (Prim2SF a)).
  destruct (SFcompare (Prim2SF a) (Prim2SF b)) as [[]|] eqn:E; cbn;
    try discriminate.
  - intros _ _. apply SFcompare_eq in E. destruct E as [E | (s & s' & E1 & E2)].
    + left. apply FloatAxioms.Prim2SF_inj. exact E.
    + right. apply zero_cases in E1, E2. subst a b. destruct s, s'; auto.
  - intros _ _. exfalso.
    destruct (Prim2SF a), (Prim2SF b); cbn in E; congruence.
Qed.

Lemma Math_min_comm (a b : float) : Math_min a b = Math_min b a.
Proof.
  unfold Math_min. rewrite (orb_comm (PrimFloat.is_nan b)).
  destruct (PrimFloat.is_nan a) eqn:Ha; [reflexivity|].
  destruct (PrimFloat.is_nan b) eqn:Hb; [reflexivity|]. cbn [orb].
  destruct (a <? b) eqn:Hab.
  - rewrite (ltb_asym _ _ Hab). reflexivity.
  - destruct (b <? a) eqn:Hba; [reflexivity|].
    destruct (ltb_neither a b Ha Hb Hab Hba) as [-> | [[-> | ->] [-> | ->]]];
      reflexivity.
Qed.

Lemma Math_max_comm (a b : float) : Math_max a b = Math_max b a.
Proof.
  unfold Math_max. rewrite (orb_comm (PrimFloat.is_nan b)).
  destruct (PrimFloat.is_nan a) eqn:Ha; [reflexivity|].
  destruct (PrimFloat.is_nan b) eqn:Hb; [reflexivity|]. cbn [orb].
  destruct (a <? b) eqn:Hab.
  - rewrite (ltb_asym _ _ Hab). reflexivity.
  - destruct (b <? a) eqn:Hba; [reflexivity|].
    destruct (ltb_neither a b Ha Hb Hab Hba) as [-> | [[-> | ->] [-> | ->]]];
      reflexivity.
Qed.

Lemma finite_cases (x : float) :
  PrimFloat.is_finite x = true ->
  (exists s, Prim2SF x = S754_zero s)
  \/ (exists s m e, Prim2SF x = S754_finite s m e).
Proof.
  unfold PrimFloat.is_finite, PrimFloat.is_nan, PrimFloat.is_infinity.
  rewrite negb_true_iff, orb_false_iff, negb_false_iff.
  rewrite !FloatAxioms.eqb_spec, FloatAxioms.abs_spec. intros [Hnan Hinf].
  destruct (Prim2SF x) as [s|s| |s m e]; eauto.
  - exfalso. cbn in Hinf. discriminate.
  - discriminate.
Qed.

Lemma sub_diag (x : float) :
  PrimFloat.is_finite x = true -> x - x = 0.
Proof.
  intros Hfin. apply FloatAxioms.Prim2SF_inj. rewrite FloatAxioms.sub_spec.
  unfold SF64sub.
  pose proof (SFsub_diag prec emax (Prim2SF x)) as H.
  destruct (finite_cases x Hfin) as [[s E] | (s & m & e & E)];
    rewrite E in *; rewrite H; reflexivity.
Qed.

(** ** An axis or a dimension that is not named *)

Section Geometry.

Variable document : Document.t.
Variable layer : Layer.t.

Let childBounds := LayerStructure.childBounds (Document.layers document) layer.
Let layerRef := [DocumentById (Document.id document); LayerById (Layer.id layer)].

(** The translate play object of a layer is addressed to that layer of
    the document. A named axis gets the requested coordinate minus the
    current one as its delta; an axis the position does not name is not
    moved: its delta is zero, whenever the layer's current coordinate is
    a finite number. *)
Theorem translate_leaves_unnamed_axis (position : Position.t) :
  exists xDelta yDelta,
    _getTranslatePlayObject document layer position
    = PlayTranslate layerRef (unitLib.pixels xDelta) (unitLib.pixels yDelta)
    /\ (forall x, Position.x position = Some x ->
                  xDelta = x - Bounds.left childBounds)
    /\ (forall y, Position.y position = Some y ->
                  yDelta = y - Bounds.top childBounds)
    /\ (Position.x position = None ->
        PrimFloat.is_finite (Bounds.left childBounds) = true -> xDelta = 0)
    /\ (Position.y position = None ->
        PrimFloat.is_finite (Bounds.top childBounds) = true -> yDelta = 0).
Proof.
  unfold _getTranslatePlayObject. fold childBounds.
  do 2 eexists. split; [reflexivity|].
  destruct position as [[x|] [y|]]; cbn [Position.x Position.y];
    repeat split; intros; try discriminate;
    repeat match goal with H : Some _ = Some _ |- _ => injection H as <- end;
    try reflexivity; apply sub_diag; assumption.
Qed.

(** The resize play object of a layer merges a translate and a resize
    of that layer. A named dimension is set to the requested value and
    the layer is moved by half the change along it. A dimension the size
    does not name keeps the layer's current value and, that value being
    finite, causes no translation along it: without a width the
    horizontal delta is zero, without a height the vertical one. *)
Theorem resize_leaves_unnamed_dimension (size : Size.t) :
  exists xDelta yDelta newWidth newHeight,
    _getResizePlayObject document layer size
    = PlayMerge
        (PlayTranslate layerRef (unitLib.pixels xDelta) (unitLib.pixels yDelta))
        (PlaySetSize layerRef (unitLib.pixels newWidth) (unitLib.pixels newHeight))
    /\ newWidth = match Size.w size with
                  | Some w => w
                  | None => Bounds.width childBounds
                  end
    /\ newHeight = match Size.h size with
                   | Some h => h
                   | None => Bounds.height childBounds
                   end
    /\ (forall w, Size.w size = Some w ->
                  xDelta = (w - Bounds.width childBounds) / 2)
    /\ (forall h, Size.h size = Some h ->
                  yDelta = (h - Bounds.height childBounds) / 2)
    /\ (Size.w size = None ->
        PrimFloat.is_finite (Bounds.width childBounds) = true -> xDelta = 0)
    /\ (Size.h size = None ->
        PrimFloat.is_finite (Bounds.height childBounds) = true -> yDelta = 0).
Proof.
  unfold _getResizePlayObject. fold childBounds.
  do 4 eexists. split; [reflexivity|].
  split; [reflexivity|]. split; [reflexivity|].
  split; [intros w ->; reflexivity|].
  split; [intros h ->; reflexivity|].
  split; intros Hnone Hfinite; rewrite Hnone, (sub_diag _ Hfinite);
    reflexivity.
Qed.

End Geometry.

(** A delta is a rounded difference: for a layer whose left is 1e16 and
    a requested x of 1, the difference is not a binary64 number and the
    delta sent is -1e16, which added to the left gives 0. *)
Example translate_delta_is_rounded :
  _getTranslatePlayObject
    (documentWith (Bounds.mk 0 1e16 50 (1e16 + 100) 100 50)
                  (Bounds.mk 0 0 50 100 100 50))
    layerOne (Position.mk (Some 1) None)
  = PlayTranslate [DocumentById 42; LayerById 1]
                  (unitLib.pixels (-1e16)) (unitLib.pixels 0)
  /\ 1e16 + -1e16 = 0.
Proof. split; reflexivity. Qed.

(** ** The batches of the positioning and sizing commands *)

Lemma fold_left_push {A B} (f : A -> list B) (l : list A) (acc : list B) :
  fold_left (fun acc a => acc ++ f a) l acc = acc ++ flat_map f l.
Proof.
  revert acc. induction l as [|a l IH]; intros acc; cbn.
  - symmetry. apply app_nil_r.
  - rewrite IH, app_assoc. reflexivity.
Qed.

Lemma natives_prepend_then (env : Env) (events : list Effect) (call : NativeCall)
    (b : bool) (request : TransferRequest) :
  Forall IsDispatch events ->
  natives (fst (prepend (events ++ [Native call])
                  (then_ (gateway env call)
                     (if b then transfer request else ret Fulfilled) env)))
  = [call].
Proof.
  intros Hev. destruct (gateway env call), b; cbn;
    rewrite <- ?app_assoc, natives_events by assumption; reflexivity.
Qed.

Lemma transfers_events (events rest : list Effect) :
  Forall IsDispatch events -> transfers (events ++ rest) = transfers rest.
Proof.
  induction 1 as [|e es [event [payload ->]] _ IH]; cbn; auto.
Qed.

Section Batches.

Variable env : Env.
Variable document : Document.t.

Let documentRef := DocumentById (Document.id document).

(** The run of the position command, whatever the number of layers. *)
Lemma setPositionCommand_run (layerSpec : list Layer.t) (position : Position.t) :
  let layers := filterNotGroupEnd layerSpec in
  let call :=
    match layers with
    | [layer] => playObject (_getTranslatePlayObject document layer position)
    | _ =>
      batchPlayObjects
        (flat_map (fun layer =>
                     [PlaySelect [documentRef; LayerById (Layer.id layer)];
                      _getTranslatePlayObject document layer position])
                  layers
         ++ [PlaySelect (documentRef
                         :: map (fun layer => LayerById (Layer.id layer)) layers)])
        None
    end in
  let descendants :=
    match layers with
    | [layer] => LayerStructure.descendants (Document.layers document) layer
    | _ => allDescendants document layers
    end in
  setPositionCommand document layerSpec position env
  = prepend
      ([Dispatch TRANSLATE_LAYERS
          (PositionPayload (Document.id document) (pluck_id layers) position)]
       ++ [Native call])
      (then_ (gateway env call)
         (if _transformingAnyGroups layers
          then transfer (ToResetLayers document descendants)
          else ret Fulfilled) env).
Proof.
  intros layers call descendants. subst layers call descendants.
  unfold setPositionCommand. cbv zeta.
  rewrite fold_left_push.
  destruct (filterNotGroupEnd layerSpec) as [|layer [|layer' rest]];
    rewrite bind_dispatch;
    (rewrite bind_playObject || rewrite bind_batchPlayObjects);
    rewrite prepend_prepend; reflexivity.
Qed.

End Batches.

Section PositionBatches.

Variable env : Env.
Variable document : Document.t.

Let documentRef := DocumentById (Document.id document).

(** Unless exactly one layer is left after the group ends are filtered
    out, the position command issues one native call, a batch: for each
    remaining layer in turn a select of that layer followed by its
    translate, and at the end one select of the document with all the
    remaining layers, which restores the selection. The batch has two
    play objects per layer and one more. *)
Theorem setPosition_batch (layerSpec : list Layer.t) (position : Position.t) :
  List.length (filterNotGroupEnd layerSpec) <> 1%nat ->
  let layers := filterNotGroupEnd layerSpec in
  let objs :=
    flat_map (fun layer =>
                [PlaySelect [documentRef; LayerById (Layer.id layer)];
                 _getTranslatePlayObject document layer position])
             layers
    ++ [PlaySelect (documentRef
                    :: map (fun layer => LayerById (Layer.id layer)) layers)] in
  natives (fst (setPositionCommand document layerSpec position env))
  = [batchPlayObjects objs None]
  /\ List.length objs = (2 * List.length layers + 1)%nat.
Proof.
  intros Hsize layers objs. split.
  - rewrite setPositionCommand_run. fold layers.
    destruct layers as [|layer [|layer' rest]] eqn:E;
      [| exfalso; apply Hsize; unfold layers in E; rewrite E; reflexivity |];
      apply natives_prepend_then; repeat constructor; apply IsDispatch_intro.
  - subst objs. rewrite length_app. cbn [List.length].
    assert (H : forall ls : list Layer.t,
               List.length
                 (flat_map (fun layer =>
                    [PlaySelect [documentRef; LayerById (Layer.id layer)];
                     _getTranslatePlayObject document layer position]) ls)
               = (2 * List.length ls)%nat).
    { induction ls as [|l ls IH]; cbn [flat_map List.length app];
        [reflexivity | rewrite IH; cbn; rewrite Nat.add_0_r, <- plus_n_Sm;
                       reflexivity]. }
    rewrite H. reflexivity.
Qed.

(** With no layer left after the group ends are filtered out, the
    position command still dispatches its event, with no layer ids, and
    still reaches the gateway, with a batch whose only play object
    selects the bare document; it never transfers. *)
Theorem setPosition_without_layers (layerSpec : list Layer.t) (position : Position.t) :
  filterNotGroupEnd layerSpec = [] ->
  let call := batchPlayObjects [PlaySelect [documentRef]] None in
  setPositionCommand document layerSpec position env
  = ([Dispatch TRANSLATE_LAYERS
        (PositionPayload (Document.id document) [] position);
      Native call],
     Normal (gateway env call)).
Proof.
  intros Hnone call. rewrite setPositionCommand_run, Hnone.
  cbn. fold documentRef. fold call. destruct (gateway env call); reflexivity.
Qed.

(** The position command hands layers over for a reset only when one
    of the remaining layers is a group: without a group there is no
    transfer, whatever the gateway answers; with a group and a fulfilled
    native call there is exactly one, and the command settles as that
    transfer does. The layers handed over are, for a single layer, the
    descendants the document gives for it; for several layers, the
    descendants of all of them: each a descendant of one of the layers,
    every descendant of every layer among them, none twice. *)
Theorem setPosition_reconciles_groups
    (layerSpec : list Layer.t) (position : Position.t) :
  let layers := filterNotGroupEnd layerSpec in
  let run := setPositionCommand document layerSpec position env in
  (_transformingAnyGroups layers = false -> transfers (fst run) = [])
  /\ (_transformingAnyGroups layers = true ->
      forall call,
        natives (fst run) = [call] ->
        gateway env call = Fulfilled ->
        exists descendants,
          transfers (fst run) = [ToResetLayers document descendants]
          /\ snd run = Normal (scheduler env (ToResetLayers document descendants))
          /\ (forall layer,
                layers = [layer] ->
                descendants
                = LayerStructure.descendants (Document.layers document) layer)
          /\ (List.length layers <> 1%nat ->
              NoDup descendants
              /\ forall layer,
                   In layer descendants
                   <-> exists parent,
                         In parent layers
                         /\ In layer
                              (LayerStructure.descendants
                                 (Document.layers document) parent))).
Proof.
  intros layers run. subst run.
  rewrite setPositionCommand_run. fold layers.
  set (descendants0 :=
         match layers with
         | [layer] => LayerStructure.descendants (Document.layers document) layer
         | _ => allDescendants document layers
         end).
  set (call0 := match layers with
                | [layer] => playObject _
                | _ => batchPlayObjects _ None
                end).
  split.
  - intros ->. destruct (gateway env call0); reflexivity.
  - intros -> call Hcall Hok.
    assert (call = call0) as ->.
    { destruct (gateway env call0); cbn in Hcall; congruence. }
    rewrite Hok. exists descendants0.
    split; [reflexivity|]. split; [reflexivity|]. split.
    + intros layer Hone. subst descendants0. rewrite Hone. reflexivity.
    + intros Hmany. subst descendants0.
      destruct layers as [|l [|l' rest]];
        [| exfalso; apply Hmany; reflexivity |];
        (split; [apply allDescendants_NoDup | apply allDescendants_spec]).
Qed.

End PositionBatches.

Section SizeBatches.

Variable env : Env.
Variable document : Document.t.

Let documentRef := DocumentById (Document.id document).

(** The run of the size command when a layer is left. *)
Lemma setSizeCommand_run (layerSpec : list Layer.t) (size : Size.t) :
  filterNotGroupEnd layerSpec <> [] ->
  let layers := filterNotGroupEnd layerSpec in
  let call :=
    match layers with
    | [layer] => playObject (_getResizePlayObject document layer size)
    | _ =>
      batchPlayObjects
        (flat_map (fun layer =>
                     [PlaySelect [documentRef; LayerById (Layer.id layer)];
                      _getResizePlayObject document layer size])
                  layers
         ++ [PlaySelect (documentRef
                         :: map (fun layer => LayerById (Layer.id layer)) layers)])
        None
    end in
  let descendants :=
    match layers with
    | [layer] => LayerStructure.descendants (Document.layers document) layer
    | _ => allDescendants document layers
    end in
  setSizeCommand document layerSpec size env
  = prepend
      ([Dispatch RESIZE_LAYERS
          (SizePayload (Document.id document) (pluck_id layers) size)]
       ++ [Native call])
      (then_ (gateway env call)
         (if _transformingAnyGroups layers
          then transfer (ToResetLayers document descendants)
          else ret Fulfilled) env).
Proof.
  intros Hsome layers call descendants. subst layers call descendants.
  unfold setSizeCommand. cbv zeta.
  rewrite fold_left_push.
  destruct (filterNotGroupEnd layerSpec) as [|layer [|layer' rest]];
    [congruence | |];
    rewrite bind_dispatch;
    (rewrite bind_playObject || rewrite bind_batchPlayObjects);
    rewrite prepend_prepend; reflexivity.
Qed.

(** When layers are left after the group ends are filtered out, the
    size command announces the resize of exactly those layers and issues
    one native call: for a single layer its merged resize-and-move
    object, for several a batch with, for each layer in turn, a select
    of that layer followed by its resize-and-move object, and a final
    select of the document with all the layers. *)
Theorem setSize_with_layers (layerSpec : list Layer.t) (size : Size.t) :
  filterNotGroupEnd layerSpec <> [] ->
  let layers := filterNotGroupEnd layerSpec in
  let run := setSizeCommand document layerSpec size env in
  dispatched (fst run)
  = [(RESIZE_LAYERS, SizePayload (Document.id document) (pluck_id layers) size)]
  /\ natives (fst run)
     = [match layers with
        | [layer] => playObject (_getResizePlayObject document layer size)
        | _ =>
          batchPlayObjects
            (flat_map (fun layer =>
                         [PlaySelect [documentRef; LayerById (Layer.id layer)];
                          _getResizePlayObject document layer size])
                      layers
             ++ [PlaySelect
                   (documentRef
                    :: map (fun layer => LayerById (Layer.id layer)) layers)])
            None
        end].
Proof.
  intros Hsome layers run. subst run.
  rewrite (setSizeCommand_run _ _ Hsome). fold layers.
  set (call := match layers with
               | [layer] => playObject _
               | _ => batchPlayObjects _ None
               end).
  destruct (gateway env call), (_transformingAnyGroups layers);
    split; reflexivity.
Qed.

(** The size command hands layers over for a reset only when one of the
    remaining layers is a group: with no layer left, or with none of
    them a group, it never transfers; with a group among them and a
    fulfilled native call it transfers exactly once and settles as that
    transfer does. *)
Theorem setSize_reconciles_groups (layerSpec : list Layer.t) (size : Size.t) :
  let layers := filterNotGroupEnd layerSpec in
  let descendants :=
    match layers with
    | [layer] => LayerStructure.descendants (Document.layers document) layer
    | _ => allDescendants document layers
    end in
  let run := setSizeCommand document layerSpec size env in
  (_transformingAnyGroups layers = false -> transfers (fst run) = [])
  /\ (_transformingAnyGroups layers = true ->
      forall call,
        natives (fst run) = [call] ->
        gateway env call = Fulfilled ->
        transfers (fst run) = [ToResetLayers document descendants]
        /\ snd run = Normal (scheduler env (ToResetLayers document descendants))).
Proof.
  intros layers descendants run. subst run.
  assert (Hcases : filterNotGroupEnd layerSpec = []
                   \/ filterNotGroupEnd layerSpec <> [])
    by (destruct (filterNotGroupEnd layerSpec); [left | right]; congruence).
  destruct Hcases as [Hnone | Hsome].
  - subst layers descendants. split.
    + intros _. unfold setSizeCommand. rewrite Hnone. reflexivity.
    + rewrite Hnone. discriminate.
  - rewrite (setSizeCommand_run _ _ Hsome). fold layers. fold descendants.
    set (call0 := match layers with
                  | [layer] => playObject _
                  | _ => batchPlayObjects _ None
                  end).
    split.
    + intros ->. destruct (gateway env call0); reflexivity.
    + intros -> call Hcall Hok.
      assert (call = call0) as ->.
      { destruct (gateway env call0); cbn in Hcall; congruence. }
      rewrite Hok. split; reflexivity.
Qed.

End SizeBatches.

(** ** Group ends are never addressed *)

Lemma layerIdsOfRefs_layers (layers : list Layer.t) :
  layerIdsOfRefs (map (fun layer => LayerById (Layer.id layer)) layers)
  = pluck_id layers.
Proof.
  induction layers as [|l ls IH]; cbn; [reflexivity|].
  unfold layerIdsOfRefs in IH. rewrite IH. reflexivity.
Qed.

Lemma layerIdsOf_selected_pairs
    (documentRef : Reference) (f : Layer.t -> PlayObject)
    (layers : list Layer.t) (id : Z) :
  (forall ref, documentRef <> LayerById ref) ->
  (forall layer id', In id' (layerIdsOf (f layer)) -> id' = Layer.id layer) ->
  In id (flat_map layerIdsOf
           (flat_map (fun layer =>
                        [PlaySelect [documentRef; LayerById (Layer.id layer)];
                         f layer])
                     layers
            ++ [PlaySelect
                  (documentRef
                   :: map (fun layer => LayerById (Layer.id layer)) layers)])) ->
  In id (pluck_id layers).
Proof.
  intros Hdoc Hf. rewrite flat_map_app, in_app_iff.
  intros [Hin | Hin].
  - induction layers as [|l ls IH]; cbn in Hin; [destruct Hin|].
    destruct documentRef; try (exfalso; eapply Hdoc; reflexivity);
      cbn in Hin; destruct Hin as [<- | Hin]; try (left; reflexivity);
      apply in_app_iff in Hin; destruct Hin as [Hin | Hin];
      try (left; symmetry; apply (Hf _ _ Hin)); right; apply IH; exact Hin.
  - cbn in Hin. rewrite app_nil_r in Hin.
    destruct documentRef; try (exfalso; eapply Hdoc; reflexivity);
      cbn in Hin; fold (layerIdsOfRefs
        (map (fun layer => LayerById (Layer.id layer)) layers)) in Hin;
      rewrite layerIdsOfRefs_layers in Hin; exact Hin.
Qed.

Lemma in_pluck_filterNotGroupEnd (layerSpec : list Layer.t) (id : Z) :
  In id (pluck_id (filterNotGroupEnd layerSpec)) ->
  exists layer,
    In layer layerSpec /\ isGroupEnd layer = false /\ Layer.id layer = id.
Proof.
  unfold pluck_id, filterNotGroupEnd. rewrite in_map_iff.
  intros [layer [Hid Hin]]. apply filter_In in Hin. destruct Hin as [Hin Hnot].
  exists layer. repeat split; try assumption.
  apply negb_true_iff. exact Hnot.
Qed.

Section GroupEnds.

Variable env : Env.
Variable document : Document.t.

(** Whatever the position and size commands send to the gateway, every
    layer id it names is the id of a layer of the given set that is not
    a group end: group ends are neither selected, nor moved, nor
    resized. *)
Theorem group_ends_never_addressed
    (layerSpec : list Layer.t) (position : Position.t) (size : Size.t)
    (call : NativeCall) (id : Z) :
  In call (natives (fst (setPositionCommand document layerSpec position env)))
  \/ In call (natives (fst (setSizeCommand document layerSpec size env))) ->
  In id (layerIdsOfCall call) ->
  exists layer,
    In layer layerSpec /\ isGroupEnd layer = false /\ Layer.id layer = id.
Proof.
  intros Hcall Hid. apply in_pluck_filterNotGroupEnd.
  destruct Hcall as [Hcall | Hcall].
  - rewrite setPositionCommand_run in Hcall.
    rewrite natives_prepend_then in Hcall
      by (repeat constructor; apply IsDispatch_intro).
    destruct Hcall as [<- | []].
    destruct (filterNotGroupEnd layerSpec) as [|l [|l' rest]];
      cbn [layerIdsOfCall] in Hid.
    + eapply layerIdsOf_selected_pairs; [| | exact Hid].
      * discriminate.
      * intros layer id' [<- | []]. reflexivity.
    + cbn in Hid. exact Hid.
    + eapply layerIdsOf_selected_pairs; [| | exact Hid].
      * discriminate.
      * intros layer id' [<- | []]. reflexivity.
  - assert (Hcases : filterNotGroupEnd layerSpec = []
                     \/ filterNotGroupEnd layerSpec <> [])
      by (destruct (filterNotGroupEnd layerSpec); [left | right]; congruence).
    destruct Hcases as [Hnone | Hsome].
    + unfold setSizeCommand in Hcall. rewrite Hnone in Hcall.
      cbn in Hcall. destruct Hcall as [<- | []]. destruct Hid.
    + rewrite (setSizeCommand_run _ _ _ _ Hsome) in Hcall.
      rewrite natives_prepend_then in Hcall
        by (repeat constructor; apply IsDispatch_intro).
      destruct Hcall as [<- | []].
      destruct (filterNotGroupEnd layerSpec) as [|l [|l' rest]];
        cbn [layerIdsOfCall] in Hid.
      * congruence.
      * cbn in Hid. destruct Hid as [<- | [<- | []]]; left; reflexivity.
      * eapply layerIdsOf_selected_pairs; [| | exact Hid].
        -- discriminate.
        -- intros layer id' [<- | [<- | []]]; reflexivity.
Qed.

End GroupEnds.

(** ** Swapping two layers *)

Section Swap.

Variable env : Env.
Variable document : Document.t.
Variables layerA layerB : Layer.t.

Let l1 := LayerStructure.childBounds (Document.layers document) layerA.
Let l2 := LayerStructure.childBounds (Document.layers document) layerB.
Let documentRef := DocumentById (Document.id document).

(** For two layers the heuristic always yields two positions, each with
    both coordinates set, and the two new tops are the two old tops,
    exchanged or kept: no vertical position is invented. *)
Theorem swap_locations_total (sensitivity : option float) :
  exists x0 y0 x1 y1,
    _calculateSwapLocations document [layerA; layerB] sensitivity
    = Some (Position.mk (Some x0) (Some y0), Position.mk (Some x1) (Some y1))
    /\ ((y0 = Bounds.top l2 /\ y1 = Bounds.top l1)
        \/ (y0 = Bounds.top l1 /\ y1 = Bounds.top l2)).
Proof.
  unfold _calculateSwapLocations. cbn [nth_error]. cbv zeta. fold l1 l2.
  destruct (_ || _ || _); [|destruct (_ || _ || _)];
    do 4 eexists; (split; [reflexivity|]); tauto.
Qed.


End Swap.

(** ** Flipping *)

Section Flip.

Variable env : Env.
Variable document : Document.t.

Lemma find_first (A : Type) (p : A -> bool) (l : list A) (a : A) :
  find p l = Some a ->
  exists before after,
    l = before ++ a :: after
    /\ p a = true
    /\ Forall (fun b => p b = false) before.
Proof.
  induction l as [|b l IH]; cbn; [discriminate|].
  destruct (p b) eqn:Hb.
  - intros [= <-]. exists [], l. repeat split; auto.
  - intros Hfind. destruct (IH Hfind) as (before & after & -> & Ha & Hbefore).
    exists (b :: before), after. repeat split; auto.
Qed.

(** When some layer of the set is not a background, the flip command
    makes exactly one native call: the flip, along the given axis, of
    the first layer of the set that is not a background. If that call is
    fulfilled, the reset is transferred and the command settles as the
    transfer does; the layers handed over are the descendants of all the
    given layers, backgrounds included: each a descendant of one of the
    layers, every descendant of every layer among them, none twice. *)
Theorem flip_first_non_background (layers : list Layer.t) (axis : string) :
  Exists (fun l => Layer.isBackground l = false) layers ->
  let run := flipCommand document layers axis env in
  exists before repLayer after,
    layers = before ++ repLayer :: after
    /\ Forall (fun l => Layer.isBackground l = true) before
    /\ Layer.isBackground repLayer = false
    /\ natives (fst run)
       = [playObject (PlayFlip (LayerById (Layer.id repLayer)) axis)]
    /\ (gateway env (playObject (PlayFlip (LayerById (Layer.id repLayer)) axis))
        = Fulfilled ->
        exists descendants,
          transfers (fst run) = [ToResetLayers document descendants]
          /\ snd run
             = Normal (scheduler env (ToResetLayers document descendants))
          /\ NoDup descendants
          /\ forall layer,
               In layer descendants
               <-> exists parent,
                     In parent layers
                     /\ In layer
                          (LayerStructure.descendants
                             (Document.layers document) parent)).
Proof.
  intros Hsome run. subst run.
  destruct (find (fun l => negb (Layer.isBackground l)) layers) as [repLayer|] eqn:Hfind.
  - destruct (find_first _ _ _ _ Hfind) as (before & after & Hlayers & Hrep & Hbefore).
    exists before, repLayer, after.
    split; [exact Hlayers|]. split.
    { eapply Forall_impl; [|exact Hbefore]. cbn. intros l Hl.
      apply negb_false_iff. exact Hl. }
    split; [apply negb_true_iff; exact Hrep|].
    unfold flipCommand. rewrite Hfind.
    assert (Hlen : (List.length layers <? 1)%nat = false)
      by (rewrite Hlayers; destruct before; reflexivity).
    rewrite Hlen. run_command.
    destruct (gateway env _); split; try reflexivity;
      intros H; try discriminate H.
    exists (allDescendants document layers).
    split; [reflexivity|]. split; [reflexivity|].
    split; [apply allDescendants_NoDup | apply allDescendants_spec].
  - exfalso. apply Exists_exists in Hsome. destruct Hsome as (l & Hin & Hl).
    apply (find_none _ _ Hfind) in Hin. cbn in Hin. rewrite Hl in Hin.
    discriminate.
Qed.

End Flip.

(** ** The actions on the current document *)

Section CurrentDocument.

Variable env : Env.

(** The four actions on the current document reach neither the gateway
    nor the stores themselves: whatever the application state, their
    runs contain no native call and no event, and at most one transfer. *)
Theorem current_document_actions_only_transfer (payload : RotatePayload) :
  Forall
    (fun run : list Effect * Completion Promise =>
       natives (fst run) = []
       /\ dispatched (fst run) = []
       /\ (List.length (transfers (fst run)) <= 1)%nat)
    [flipXCurrentDocumentCommand env;
     flipYCurrentDocumentCommand env;
     swapLayersCurrentDocumentCommand env;
     rotateLayersInCurrentDocumentCommand payload env].
Proof.
  unfold flipXCurrentDocumentCommand, flipYCurrentDocumentCommand,
    swapLayersCurrentDocumentCommand, rotateLayersInCurrentDocumentCommand.
  run_command.
  destruct (angle payload);
    (destruct (getCurrentDocument env) as [d|];
     [destruct (LayerStructure.selectedLocked (Document.layers d));
      [|destruct (List.length _ =? 2)%nat] |]);
    repeat (apply Forall_cons; [cbn; auto |]); apply Forall_nil.
Qed.

(** While the selection of the current document is locked, none of the
    four actions transfers: the two flips and the swap resolve without
    any effect, and the rotate action resolves too, its only effect
    being the error it logs when the payload has no angle. *)
Theorem current_document_locked (document : Document.t) (payload : RotatePayload) :
  getCurrentDocument env = Some document ->
  LayerStructure.selectedLocked (Document.layers document) = true ->
  flipXCurrentDocumentCommand env = ([], Normal Fulfilled)
  /\ flipYCurrentDocumentCommand env = ([], Normal Fulfilled)
  /\ swapLayersCurrentDocumentCommand env = ([], Normal Fulfilled)
  /\ rotateLayersInCurrentDocumentCommand payload env
     = (match angle payload with
        | Some _ => []
        | None => [LogError "Missing angle"]
        end,
        Normal Fulfilled).
Proof.
  intros Hdoc Hlocked.
  unfold flipXCurrentDocumentCommand, flipYCurrentDocumentCommand,
    swapLayersCurrentDocumentCommand, rotateLayersInCurrentDocumentCommand.
  destruct (angle payload); run_command; rewrite Hdoc, Hlocked; repeat split.
Qed.

(** Without a current document the rotate action resolves, its only
    effect being the error it logs when the payload has no angle, while
    the two flip actions and the swap action throw a TypeError before
    doing anything: they read the selection off the document ahead of
    their test for a missing document. *)
Theorem current_document_missing (payload : RotatePayload) :
  getCurrentDocument env = None ->
  rotateLayersInCurrentDocumentCommand payload env
  = (match angle payload with
     | Some _ => []
     | None => [LogError "Missing angle"]
     end,
     Normal Fulfilled)
  /\ exists message,
       flipXCurrentDocumentCommand env = ([], Throw (TypeError message))
       /\ flipYCurrentDocumentCommand env = ([], Throw (TypeError message))
       /\ swapLayersCurrentDocumentCommand env = ([], Throw (TypeError message)).
Proof.
  intros Hdoc.
  unfold flipXCurrentDocumentCommand, flipYCurrentDocumentCommand,
    swapLayersCurrentDocumentCommand, rotateLayersInCurrentDocumentCommand.
  destruct (angle payload); run_command; rewrite Hdoc;
    (split; [reflexivity|]); eexists; repeat split.
Qed.

(** With a current document whose selection is not locked, the flip
    actions transfer to the flip of the selected layers of that
    document, the rotate action transfers to the rotation of that
    document by the angle of the payload, and each settles as its
    transfer does. *)
Theorem current_document_transfers (document : Document.t) (degrees : float) :
  getCurrentDocument env = Some document ->
  LayerStructure.selectedLocked (Document.layers document) = false ->
  let selected := LayerStructure.selected (Document.layers document) in
  flipXCurrentDocumentCommand env
  = ([Transfer (ToFlipX document selected)],
     Normal (scheduler env (ToFlipX document selected)))
  /\ flipYCurrentDocumentCommand env
     = ([Transfer (ToFlipY document selected)],
        Normal (scheduler env (ToFlipY document selected)))
  /\ rotateLayersInCurrentDocumentCommand {| angle := Some degrees |} env
     = ([Transfer (ToRotate document degrees)],
        Normal (scheduler env (ToRotate document degrees))).
Proof.
  intros Hdoc Hlocked selected.
  unfold flipXCurrentDocumentCommand, flipYCurrentDocumentCommand,
    rotateLayersInCurrentDocumentCommand.
  run_command. cbn [angle]. rewrite Hdoc, Hlocked. repeat split.
Qed.

End CurrentDocument.

(** ** What no command of the module does *)

Section Never.

Variable env : Env.

(** Every command that reaches the gateway does so at most once per
    call, and transfers at most once. *)
Theorem commands_call_and_transfer_at_most_once (call : Invocation) :
  (List.length (natives (fst (invoke call env))) <= 1)%nat
  /\ (List.length (transfers (fst (invoke call env))) <= 1)%nat.
Proof.
  destruct (invoke_run env call)
    as [exn | | events c Hev _ | events c request Hev _ _]; cbn [fst].
  - cbn. auto.
  - cbn. auto.
  - rewrite natives_events, transfers_events by assumption. cbn. auto.
  - rewrite natives_events, transfers_events by assumption. cbn. auto.
Qed.

(** A command that throws has done nothing before: no event, no native
    call, no transfer. Failed preconditions leave no trace. *)
Theorem commands_throw_before_any_effect (call : Invocation) (exn : Exception) :
  snd (invoke call env) = Throw exn -> fst (invoke call env) = [].
Proof.
  destruct (invoke_run env call)
    as [exn' | | events c Hev _ | events c request Hev _ _]; cbn [fst snd];
    intros H; try reflexivity; discriminate H.
Qed.

Lemma transfers_then_if (events : list Effect) (call : NativeCall) (b : bool)
    (request r : TransferRequest) :
  Forall IsDispatch events ->
  In r (transfers (fst (prepend (events ++ [Native call])
                          (then_ (gateway env call)
                             (if b then transfer request else ret Fulfilled)
                             env)))) ->
  r = request.
Proof.
  intros Hev. destruct (gateway env call), b; cbn;
    rewrite <- ?app_assoc, transfers_events by assumption; cbn;
    intros H; repeat (destruct H as [H | H]); try contradiction; congruence.
Qed.

Ltac close_transfer :=
  intros Hin; repeat (destruct Hin as [Hin | Hin]); try contradiction;
  subst; split; reflexivity.

(** The only action these commands ever transfer to is the reset of
    layers, and only for the document they were called on. *)
Theorem commands_transfer_only_reset
    (call : Invocation) (request : TransferRequest) :
  In request (transfers (fst (invoke call env))) ->
  isReset request = true /\ documentOf request = documentOfCall call.
Proof.
  destruct call; cbn [invoke command documentOfCall setPosition setSize
    setBounds flipX flipY swapLayers setRadius rotate].
  - rewrite setPositionCommand_run. intros Hin.
    apply transfers_then_if in Hin;
      [subst request; split; reflexivity
      | repeat constructor; apply IsDispatch_intro].
  - assert (Hcases : filterNotGroupEnd layerSpec = []
                     \/ filterNotGroupEnd layerSpec <> [])
      by (destruct (filterNotGroupEnd layerSpec); [left | right]; congruence).
    destruct Hcases as [Hnone | Hsome].
    + unfold setSizeCommand. rewrite Hnone. cbn. intros [].
    + rewrite (setSizeCommand_run _ _ _ _ Hsome). intros Hin.
      apply transfers_then_if in Hin;
        [subst request; split; reflexivity
        | repeat constructor; apply IsDispatch_intro].
  - unfold setBoundsCommand. run_command.
    destruct (gateway env _); cbn; close_transfer.
  - unfold flipXCommand, flipCommand.
    destruct (List.length layers <? 1)%nat; [intros []|].
    destruct (find _ layers); [|intros []]. run_command.
    destruct (gateway env _); cbn; close_transfer.
  - unfold flipYCommand, flipCommand.
    destruct (List.length layers <? 1)%nat; [intros []|].
    destruct (find _ layers); [|intros []]. run_command.
    destruct (gateway env _); cbn; close_transfer.
  - unfold swapLayersCommand.
    destruct (negb _); [intros []|].
    destruct (forallb _ _); [intros []|].
    destruct (_calculateSwapLocations _ _ _) as [[p0 p1]|]; [|intros []].
    destruct (nth_error layers 0); [|intros []].
    destruct (nth_error layers 1); [|intros []].
    run_command.
    destruct (gateway env _); [destruct (_transformingAnyGroups _)|];
      cbn; close_transfer.
  - unfold setRadiusCommand. cbn. intros [].
  - unfold rotateCommand. run_command.
    destruct (gateway env _); cbn; close_transfer.
Qed.

End Never.

(** * Properties of the carousel *)

Module CarouselFacts.
Import Carousel.

Local Open Scope Q_scope.

Section Navigation.

Variable Node : Type.
Variable props : Props Node.

Let n := Z.of_nat (List.length (items props)).

Lemma next_index (this_state : State) (i : Z) :
  index this_state = Num i -> (0 <= i < n)%Z ->
  index (state (_nextItem props this_state))
  = Num (if wrapNavigation props
         then (if (i + 1 =? n)%Z then 0 else i + 1)%Z
         else Z.min (i + 1) (n - 1)).
Proof.
  intros Hi Hrange. unfold _nextItem, _gotoItem, items_length. fold n.
  cbn [state index]. rewrite Hi.
  destruct (wrapNavigation props); cbn [add sub rem Math_min]; [|reflexivity].
  destruct (n =? 0)%Z eqn:Hn; [apply Z.eqb_eq in Hn; lia|].
  f_equal. destruct (i + 1 =? n)%Z eqn:Hlast.
  - apply Z.eqb_eq in Hlast. rewrite Hlast. apply Z.rem_same. lia.
  - apply Z.eqb_neq in Hlast. apply Z.rem_small. lia.
Qed.

Lemma prev_index (this_state : State) (i : Z) :
  index this_state = Num i -> (0 <= i < n)%Z ->
  index (state (_prevItem props this_state))
  = Num (if wrapNavigation props
         then (if (i =? 0)%Z then n - 1 else i - 1)%Z
         else Z.max (i - 1) 0).
Proof.
  intros Hi Hrange. unfold _prevItem, _gotoItem, items_length. fold n.
  cbn [state index]. rewrite Hi.
  destruct (wrapNavigation props); cbn [add sub lt Math_max andb]; [|reflexivity].
  destruct (i =? 0)%Z eqn:Hfirst.
  - apply Z.eqb_eq in Hfirst. subst i. cbn; f_equal; lia.
  - apply Z.eqb_neq in Hfirst.
    destruct (i - 1 <? 0)%Z eqn:Hneg; [apply Z.ltb_lt in Hneg; lia|].
    cbn; f_equal; lia.
Qed.

Lemma navigation_keeps_index_in_range_helper (this_state : State) :
  InRange props (index this_state) ->
  InRange props (index (state (_nextItem props this_state)))
  /\ InRange props (index (state (_prevItem props this_state))).
Proof.
  intros (i & Hi & Hrange). fold n in Hrange. split.
  - rewrite (next_index _ i Hi Hrange). eexists. split; [reflexivity|].
    fold n. destruct (wrapNavigation props);
      [destruct (i + 1 =? n)%Z eqn:E; [|apply Z.eqb_neq in E] |]; lia.
  - rewrite (prev_index _ i Hi Hrange). eexists. split; [reflexivity|].
    fold n. destruct (wrapNavigation props);
      [destruct (i =? 0)%Z eqn:E; [|apply Z.eqb_neq in E] |]; lia.
Qed.

(** As long as the index names an item, it still does after a step to
    the next item and after a step to the previous one, with wrapping
    and without. *)
Theorem navigation_keeps_index_in_range (this_state : State) :
  InRange props (index this_state) ->
  InRange props (index (state (_nextItem props this_state)))
  /\ InRange props (index (state (_prevItem props this_state))).
Proof.
  exact (navigation_keeps_index_in_range_helper this_state).
Qed.

(** With wrapping, next and previous undo each other on every item,
    the first and the last included. *)
Theorem wrapped_steps_undo_each_other (this_state : State) :
  wrapNavigation props = true ->
  InRange props (index this_state) ->
  index (state (_prevItem props (state (_nextItem props this_state))))
  = index this_state
  /\ index (state (_nextItem props (state (_prevItem props this_state))))
     = index this_state.
Proof.
  intros Hwrap (i & Hi & Hrange). fold n in Hrange.
  pose proof (next_index _ i Hi Hrange) as Hnext.
  pose proof (prev_index _ i Hi Hrange) as Hprev.
  rewrite Hwrap in Hnext, Hprev. split.
  - rewrite (prev_index _ _ Hnext), Hwrap, Hi.
    + f_equal. destruct (i + 1 =? n)%Z eqn:E;
        [apply Z.eqb_eq in E; cbn; lia|].
      apply Z.eqb_neq in E.
      destruct (i + 1 =? 0)%Z eqn:E0; [apply Z.eqb_eq in E0; lia | lia].
    + destruct (i + 1 =? n)%Z eqn:E; [|apply Z.eqb_neq in E]; lia.
  - rewrite (next_index _ _ Hprev), Hwrap, Hi.
    + f_equal. destruct (i =? 0)%Z eqn:E.
      * apply Z.eqb_eq in E. rewrite Z.sub_add, Z.eqb_refl. lia.
      * apply Z.eqb_neq in E. rewrite Z.sub_add.
        destruct (i =? n)%Z eqn:E1; [apply Z.eqb_eq in E1; lia | reflexivity].
    + destruct (i =? 0)%Z eqn:E; [|apply Z.eqb_neq in E]; lia.
Qed.

(** Without wrapping the steps stop at the ends: next on the last item
    and previous on the first change nothing, and away from those ends
    next and previous undo each other. *)
Theorem clamped_steps (this_state : State) (i : Z) :
  wrapNavigation props = false ->
  index this_state = Num i -> (0 <= i < n)%Z ->
  ((i + 1 = n)%Z -> index (state (_nextItem props this_state)) = Num i)
  /\ (i = 0%Z -> index (state (_prevItem props this_state)) = Num i)
  /\ ((i + 1 < n)%Z ->
      index (state (_prevItem props (state (_nextItem props this_state))))
      = Num i)
  /\ ((0 < i)%Z ->
      index (state (_nextItem props (state (_prevItem props this_state))))
      = Num i).
Proof.
  intros Hwrap Hi Hrange.
  pose proof (next_index _ i Hi Hrange) as Hnext.
  pose proof (prev_index _ i Hi Hrange) as Hprev.
  rewrite Hwrap in Hnext, Hprev.
  repeat split; intros H.
  - rewrite Hnext. f_equal; lia.
  - rewrite Hprev. f_equal; lia.
  - rewrite (prev_index _ _ Hnext), Hwrap by lia. f_equal; lia.
  - rewrite (next_index _ _ Hprev), Hwrap by lia. f_equal; lia.
Qed.

(** The direction recorded with a step is backward exactly when the
    index went down. So a step to the next item is forward, except
    that wrapping from the last item of several to the first is
    recorded as backward; and a step to the previous item is backward,
    except that on the first item it is recorded as forward, whether it
    wraps to the last item or stays. *)
Theorem direction_of_steps (this_state : State) (i : Z) :
  index this_state = Num i -> (0 <= i < n)%Z ->
  direction (state (_nextItem props this_state))
  = (if wrapNavigation props && (i + 1 =? n)%Z && (1 <? n)%Z
     then "backward" else "forward")%string
  /\ direction (state (_prevItem props this_state))
     = (if (0 <? i)%Z then "backward" else "forward")%string.
Proof.
  intros Hi Hrange.
  pose proof (next_index _ i Hi Hrange) as Hnext.
  pose proof (prev_index _ i Hi Hrange) as Hprev.
  unfold _nextItem, _prevItem, _gotoItem in *. cbn [state index direction] in *.
  rewrite Hnext, Hprev, Hi. cbn [gt]. split.
  - destruct (wrapNavigation props); cbn [andb].
    + destruct (i + 1 =? n)%Z eqn:E; cbn [andb].
      * apply Z.eqb_eq in E.
        destruct (1 <? n)%Z eqn:E1, (0 <? i)%Z eqn:E2; try reflexivity;
          [apply Z.ltb_lt in E1; apply Z.ltb_ge in E2
          |apply Z.ltb_ge in E1; apply Z.ltb_lt in E2]; lia.
      * destruct (i + 1 <? i)%Z eqn:E1; [apply Z.ltb_lt in E1; lia|reflexivity].
    + destruct (Z.min (i + 1) (n - 1) <? i)%Z eqn:E1;
        [apply Z.ltb_lt in E1; lia | reflexivity].
  - destruct (wrapNavigation props).
    + destruct (i =? 0)%Z eqn:E.
      * apply Z.eqb_eq in E. subst i. cbn.
        destruct (n - 1 <? 0)%Z eqn:E1; [apply Z.ltb_lt in E1; lia|reflexivity].
      * apply Z.eqb_neq in E.
        destruct (0 <? i)%Z eqn:E2, (i - 1 <? i)%Z eqn:E1; try reflexivity;
          [apply Z.ltb_ge in E1 | apply Z.ltb_ge in E2]; lia.
    + destruct (0 <? i)%Z eqn:E2, (Z.max (i - 1) 0 <? i)%Z eqn:E1;
        try reflexivity;
        [apply Z.ltb_lt in E2; apply Z.ltb_ge in E1
        |apply Z.ltb_ge in E2; apply Z.ltb_lt in E1]; lia.
Qed.

End Navigation.

Section Rendering.

Variable Node : Type.
Variable props : Props Node.

Lemma filter_map_length (A B : Type) (f : B -> bool) (g : A -> B) (l : list A) :
  List.length (filter f (map g l))
  = List.length (filter (fun a => f (g a)) l).
Proof.
  induction l as [|a l IH]; cbn; [reflexivity|].
  destruct (f (g a)); cbn; rewrite IH; reflexivity.
Qed.

Lemma current_count (z : Z) (a m : nat) :
  List.length (filter (fun k => strictEq (Num (Z.of_nat k)) (Num z)) (seq a m))
  = if ((Z.of_nat a <=? z) && (z <? Z.of_nat (a + m)))%Z then 1%nat else 0%nat.
Proof.
  revert a. induction m as [|m IH]; intros a; cbn [seq filter List.length].
  - destruct (Z.of_nat a <=? z)%Z eqn:E1, (z <? Z.of_nat (a + 0))%Z eqn:E2;
      try reflexivity.
    apply Z.leb_le in E1. apply Z.ltb_lt in E2. lia.
  - cbn [strictEq]. destruct (Z.of_nat a =? z)%Z eqn:E; cbn [List.length];
      rewrite IH.
    + apply Z.eqb_eq in E.
      destruct (Z.of_nat (S a) <=? z)%Z eqn:E1; [apply Z.leb_le in E1; lia|].
      destruct (Z.of_nat a <=? z)%Z eqn:E2; [|apply Z.leb_gt in E2; lia].
      destruct (z <? Z.of_nat (a + S m))%Z eqn:E3;
        [reflexivity | apply Z.ltb_ge in E3; lia].
    + apply Z.eqb_neq in E.
      replace (S a + m)%nat with (a + S m)%nat by lia.
      destruct (Z.of_nat (S a) <=? z)%Z eqn:E1,
               (Z.of_nat a <=? z)%Z eqn:E2; try reflexivity.
      * apply Z.leb_le in E1. apply Z.leb_gt in E2. lia.
      * apply Z.leb_gt in E1. apply Z.leb_le in E2.
        destruct (z <? Z.of_nat (a + S m))%Z; [lia | reflexivity].
Qed.

(** When the navigation is built it has one dot per item, in order,
    each going to its own item; a dot is marked current exactly when it
    is the dot of the index, so that an index that names an item marks
    exactly one dot. The navigation is left out only on the first slide
    of a carousel that asks for the continue button there. *)
Theorem nav_marks_the_current_item (this_state : State) :
  (_buildNav props this_state = None
   <-> useContinueOnFirstSlide props = true /\ index this_state = Num 0)
  /\ forall dots,
       _buildNav props this_state = Some dots ->
       map idx dots = seq 0 (List.length (items props))
       /\ (forall dot, In dot dots ->
             dot_goto dot = Num (Z.of_nat (idx dot))
             /\ (current dot = true
                 <-> index this_state = Num (Z.of_nat (idx dot))))
       /\ (InRange props (index this_state) ->
           List.length (filter current dots) = 1%nat).
Proof.
  unfold _buildNav. split.
  - destruct (useContinueOnFirstSlide props); cbn [andb negb].
    + destruct (index this_state) as [z|]; cbn [strictEq].
      * destruct (z =? 0)%Z eqn:E; cbn [negb].
        -- apply Z.eqb_eq in E. subst z. tauto.
        -- apply Z.eqb_neq in E. split; [discriminate|].
           intros [_ [= H]]. contradiction.
      * cbn. split; [discriminate | intros [_ H]; discriminate H].
    + split; [discriminate | intros [H _]; discriminate H].
  - intros dots Hdots.
    destruct (negb _); [|discriminate]. injection Hdots as <-.
    split; [|split].
    + rewrite map_map. cbn. apply map_id.
    + intros dot Hin. apply in_map_iff in Hin. destruct Hin as (k & <- & _).
      cbn. split; [reflexivity|].
      destruct (index this_state) as [z|]; cbn.
      * rewrite Z.eqb_eq. split; intros H; [f_equal; lia | injection H; lia].
      * split; discriminate.
    + intros (i & Hi & Hrange). rewrite Hi.
      rewrite filter_map_length. cbn [current].
      change (fun a : nat => (Z.of_nat a =? i)%Z)
        with (fun k : nat => strictEq (Num (Z.of_nat k)) (Num i)).
      rewrite current_count.
      destruct (Z.of_nat 0 <=? i)%Z eqn:E1; [|apply Z.leb_gt in E1; lia].
      destruct (i <? Z.of_nat (0 + List.length (items props)))%Z eqn:E2;
        [reflexivity | apply Z.ltb_ge in E2; lia].
Qed.

End Rendering.

Section Buttons.

Variable Node : Type.
Variable props : Props Node.

Let n := Z.of_nat (List.length (items props)).

(** While the index names an item, the arrows never lead outside the
    items: the previous button is there exactly when the index is not
    the first and goes one down, the next-slide button goes one up and
    only to an existing item, the get-started button appears on the
    last item only, and the continue button on the first item only. *)
Theorem buttons_stay_in_range (this_state : State) (i : Z) :
  index this_state = Num i -> (0 <= i < n)%Z ->
  (_buildPreviousButton this_state
   = if (i =? 0)%Z then None else Some (Num (i - 1)))
  /\ (forall goto,
        _buildPreviousButton this_state = Some goto -> InRange props goto)
  /\ (forall goto,
        _buildNextButton props this_state = Some (NextSlideButton goto) ->
        goto = Num (i + 1) /\ InRange props goto)
  /\ (_buildNextButton props this_state = Some GetStartedButton ->
      (i + 1 = n)%Z)
  /\ (forall goto,
        _buildNextButton props this_state = Some (ContinueButton goto) ->
        i = 0%Z /\ goto = Num 1).
Proof.
  intros Hi Hrange.
  unfold _buildPreviousButton, _buildNextButton, items_length. fold n.
  rewrite Hi. cbn [gt lt sub add strictEq].
  assert (Hprev : (if (0 <? i)%Z then Some (Num (i - 1)) else None)
                  = (if (i =? 0)%Z then None else Some (Num (i - 1)))).
  { destruct (0 <? i)%Z eqn:E1, (i =? 0)%Z eqn:E2; try reflexivity;
      [apply Z.ltb_lt in E1; apply Z.eqb_eq in E2
      |apply Z.ltb_ge in E1; apply Z.eqb_neq in E2]; lia. }
  split; [exact Hprev|]. split; [|split; [|split]].
  - intros goto. rewrite Hprev.
    destruct (i =? 0)%Z eqn:E; [discriminate|].
    apply Z.eqb_neq in E. intros [= <-].
    exists (i - 1)%Z. split; [reflexivity | fold n; lia].
  - intros goto.
    destruct (useContinueOnFirstSlide props && (i =? 0)%Z); [discriminate|].
    destruct (i <? n - 1)%Z eqn:E.
    + apply Z.ltb_lt in E. intros [= <-]. split; [reflexivity|].
      exists (i + 1)%Z. split; [reflexivity | fold n; lia].
    + destruct (useDismissOnLastSlide props); discriminate.
  - destruct (useContinueOnFirstSlide props && (i =? 0)%Z); [discriminate|].
    destruct (i <? n - 1)%Z eqn:E; [discriminate|].
    apply Z.ltb_ge in E. intros _. lia.
  - intros goto.
    destruct (useContinueOnFirstSlide props); cbn [andb].
    + destruct (i =? 0)%Z eqn:E.
      * apply Z.eqb_eq in E. intros [= <-]. split; [exact E | reflexivity].
      * destruct (i <? n - 1)%Z; [discriminate|].
        destruct (useDismissOnLastSlide props); discriminate.
    + destruct (i <? n - 1)%Z; [discriminate|].
      destruct (useDismissOnLastSlide props); discriminate.
Qed.

(** A click moves to the previous item, moves to the next item, or does
    nothing, and stops the event exactly when it moves; so an index
    that names an item still does after any click. Without a DOM node
    the click does nothing, and a click inside the rectangle of the
    component always moves. *)
Theorem click_steps_or_does_nothing
    (this_state : State) (elt : option ClientRect) (event : MouseEvent) :
  let handled := _handleClick props this_state elt event in
  (handled = {| state := this_state; propagationStopped := false |}
   \/ handled = _prevItem props this_state
   \/ handled = _nextItem props this_state)
  /\ (InRange props (index this_state) ->
      InRange props (index (state handled)))
  /\ (elt = None -> handled = {| state := this_state;
                                 propagationStopped := false |})
  /\ (forall bounds,
        elt = Some bounds ->
        rect_top bounds <= clientY event ->
        clientY event <= rect_bottom bounds ->
        rect_left bounds <= clientX event ->
        clientX event <= rect_right bounds ->
        propagationStopped handled = true).
Proof.
  intros handled.
  assert (Hcases :
            handled = {| state := this_state; propagationStopped := false |}
            \/ handled = _prevItem props this_state
            \/ handled = _nextItem props this_state).
  { subst handled. unfold _handleClick. destruct elt as [bounds|]; [|tauto].
    destruct (_ && _ && _); [|tauto].
    destruct (Qle_bool (clientX event) _); [tauto|].
    destruct (Qle_bool (clientX event) _); tauto. }
  split; [exact Hcases|]. split; [|split].
  - intros Hin.
    destruct (navigation_keeps_index_in_range_helper Node props this_state Hin)
      as [Hnext Hprev].
    destruct Hcases as [-> | [-> | ->]]; assumption.
  - intros ->. reflexivity.
  - intros bounds -> Htop Hbottom Hleft Hright. subst handled.
    unfold _handleClick.
    apply Qle_bool_iff in Htop, Hbottom, Hleft, Hright.
    rewrite Htop, Hbottom, Hleft, Hright. cbn [andb].
    destruct (Qle_bool (clientX event) (rect_left bounds + _)); reflexivity.
Qed.

End Buttons.

End CarouselFacts.

(** * Properties of the export assets *)

Module LayerExportsFacts.
Import LayerExports.

Local Open Scope Q_scope.

Lemma existsb_used (assets : list ExportAsset) (t : Q) :
  existsb (fun v => match v with
                    | Some q => Qeq_bool t q
                    | None => false
                    end) (map scale assets) = true
  <-> Used assets t.
Proof.
  rewrite existsb_exists. split.
  - intros (v & Hin & Hv). apply in_map_iff in Hin.
    destruct Hin as (asset & <- & Hin).
    destruct (scale asset) as [q|] eqn:Hq; [|discriminate].
    exists asset, q. repeat split; try assumption.
    apply Qeq_bool_iff. exact Hv.
  - intros (asset & q & Hin & Hq & Heq).
    exists (Some q). split.
    + rewrite <- Hq. apply in_map. exact Hin.
    + apply Qeq_bool_iff. exact Heq.
Qed.

Lemma filter_head (A : Type) (p : A -> bool) (l : list A) (a : A) (rest : list A) :
  filter p l = a :: rest ->
  exists before after,
    l = before ++ a :: after
    /\ p a = true
    /\ Forall (fun b => p b = false) before.
Proof.
  induction l as [|b l IH]; cbn; [discriminate|].
  destruct (p b) eqn:Hb.
  - intros [= <- _]. exists [], l. repeat split; auto.
  - intros H. destruct (IH H) as (before & after & -> & Ha & Hbefore).
    exists (b :: before), after. repeat split; auto.
Qed.

Section AddAsset.

Variable pluckMissing : Completion (list (option Q)).

(** For a layer that has an export list, the handler asks for a new
    asset at the end of the list, and the scale it proposes is the first
    of 0.5, 1, 1.5 and 2 that no asset of the list has yet: the proposed
    scale is one of the four, no asset has it, and every one of the four
    listed before it is taken. *)
Theorem add_asset_proposes_first_unused_scale
    (assets : list ExportAsset) (nextAssetIndex : nat) (nextScale : Q) :
  _addAssetClickHandler pluckMissing (Some assets)
  = Normal (nextAssetIndex, Some nextScale) ->
  nextAssetIndex = List.length assets
  /\ ~ Used assets nextScale
  /\ exists before after,
       allScales = before ++ nextScale :: after
       /\ Forall (Used assets) before.
Proof.
  unfold _addAssetClickHandler, difference.
  destruct (filter _ allScales) as [|first rest] eqn:Hfilter; [discriminate|].
  intros [= <- <-].
  destruct (filter_head _ _ _ _ _ Hfilter) as (before & after & Hall & Hfirst & Hbefore).
  split; [reflexivity|]. split.
  - intros Hused. apply existsb_used in Hused.
    rewrite Hused in Hfirst. discriminate.
  - exists before, after. split; [exact Hall|].
    eapply Forall_impl; [|exact Hbefore]. cbn. intros t Ht.
    apply existsb_used. apply negb_false_iff. exact Ht.
Qed.

Lemma scales_exclusive (a b q : Q) :
  Qeq_bool a b = false ->
  Qeq_bool a q = true -> Qeq_bool b q = true -> False.
Proof.
  intros Hab Ha Hb. apply Qeq_bool_iff in Ha, Hb.
  assert (Heq : a == b) by (rewrite Ha, Hb; reflexivity).
  apply Qeq_bool_iff in Heq. congruence.
Qed.

Lemma difference_shrinks_by_one (v : option Q) (scales : list (option Q)) :
  (List.length (difference allScales scales)
   <= S (List.length (difference allScales (v :: scales))))%nat.
Proof.
  unfold difference, allScales. cbn [filter existsb].
  set (e1 := existsb _ scales).
  set (e2 := existsb _ scales).
  set (e3 := existsb _ scales).
  set (e4 := existsb _ scales).
  destruct v as [q|]; cbn [orb].
  - pose proof (scales_exclusive (1 # 2) 1 q eq_refl) as H12.
    pose proof (scales_exclusive (1 # 2) (3 # 2) q eq_refl) as H13.
    pose proof (scales_exclusive (1 # 2) 2 q eq_refl) as H14.
    pose proof (scales_exclusive 1 (3 # 2) q eq_refl) as H23.
    pose proof (scales_exclusive 1 2 q eq_refl) as H24.
    pose proof (scales_exclusive (3 # 2) 2 q eq_refl) as H34.
    destruct (Qeq_bool (1 # 2) q), (Qeq_bool 1 q), (Qeq_bool (3 # 2) q),
             (Qeq_bool 2 q);
      try (exfalso; auto; fail);
      destruct e1, e2, e3, e4; cbn; lia.
  - destruct e1, e2, e3, e4; cbn; lia.
Qed.

Lemma difference_leaves_enough (scales : list (option Q)) :
  (4 <= List.length (difference allScales scales) + List.length scales)%nat.
Proof.
  induction scales as [|v scales IH].
  - cbn. lia.
  - pose proof (difference_shrinks_by_one v scales). cbn [List.length]. lia.
Qed.

(** A layer with fewer than four assets is always offered a scale; the
    handler proposes none ([null]) exactly when each of 0.5, 1, 1.5 and
    2 is the scale of some asset of the list. *)
Theorem add_asset_runs_out_of_scales (assets : list ExportAsset) :
  ((List.length assets < 4)%nat ->
   exists nextScale,
     _addAssetClickHandler pluckMissing (Some assets)
     = Normal (List.length assets, Some nextScale))
  /\ (_addAssetClickHandler pluckMissing (Some assets)
      = Normal (List.length assets, None)
      <-> Forall (Used assets) allScales).
Proof.
  unfold _addAssetClickHandler. split.
  - intros Hfew.
    pose proof (difference_leaves_enough (map scale assets)) as Hleft.
    rewrite length_map in Hleft.
    destruct (difference allScales (map scale assets)) as [|first rest];
      [cbn in Hleft; lia | eauto].
  - unfold difference. split.
    + intros H.
      destruct (filter _ allScales) as [|first rest] eqn:Hfilter;
        [|discriminate].
      apply Forall_forall. intros t Hin. apply existsb_used.
      destruct (existsb _ (map scale assets)) eqn:E; [reflexivity|].
      assert (Hin' : In t (filter
                (fun a => negb (existsb (fun v => match v with
                                                  | Some q => Qeq_bool a q
                                                  | None => false
                                                  end) (map scale assets)))
                allScales))
        by (apply filter_In; rewrite E; auto).
      rewrite Hfilter in Hin'. destruct Hin'.
    + intros Hall.
      destruct (filter _ allScales) as [|first rest] eqn:Hfilter;
        [reflexivity|].
      exfalso.
      assert (Hin : In first (first :: rest)) by (left; reflexivity).
      rewrite <- Hfilter in Hin. apply filter_In in Hin.
      destruct Hin as [Hin Hfree].
      rewrite Forall_forall in Hall. apply Hall, existsb_used in Hin.
      rewrite Hin in Hfree. discriminate.
Qed.

End AddAsset.

End LayerExportsFacts.

(** * The order of the two layers in a swap *)

Section SwapOrder.

Variable document : Document.t.
Variables layerA layerB : Layer.t.
Variable sensitivity : option float.

(** The heuristic treats the two layers alike: given in the other
    order, each layer is sent to the same position, the two results
    merely changing places. *)
Theorem swap_order_irrelevant :
  exists positionA positionB,
    _calculateSwapLocations document [layerA; layerB] sensitivity
    = Some (positionA, positionB)
    /\ _calculateSwapLocations document [layerB; layerA] sensitivity
       = Some (positionB, positionA).
Proof.
  unfold _calculateSwapLocations. cbn [nth_error]. cbv zeta.
  set (l1 := LayerStructure.childBounds (Document.layers document) layerA).
  set (l2 := LayerStructure.childBounds (Document.layers document) layerB).
  set (s := orDefault sensitivity 10).
  rewrite (Math_min_comm (Bounds.left l2) (Bounds.left l1)).
  rewrite (Math_max_comm (Bounds.right l2) (Bounds.right l1)).
  rewrite (Math_min_comm (Bounds.top l2) (Bounds.top l1)).
  rewrite (Math_max_comm (Bounds.bottom l2) (Bounds.bottom l1)).
  rewrite (abs_sub_sym (Bounds.left l2) (Bounds.left l1)).
  rewrite (abs_sub_sym (Bounds.right l2) (Bounds.right l1)).
  rewrite (abs_sub_sym (Bounds.top l2) (Bounds.top l1)).
  rewrite (abs_sub_sym (Bounds.bottom l2) (Bounds.bottom l1)).
  rewrite (abs_sub_sym (Bounds.left l2 + Bounds.width l2 / 2)
                       (Bounds.left l1 + Bounds.width l1 / 2)).
  rewrite (abs_sub_sym (Bounds.top l2 + Bounds.height l2 / 2)
                       (Bounds.top l1 + Bounds.height l1 / 2)).
  destruct (_ || _ || _); [|destruct (_ || _ || _)];
    do 2 eexists; split; reflexivity.
Qed.

End SwapOrder.

(** * The further properties at concrete inputs *)

(** Two layers and a group end: the batch selects and moves the two
    layers and reselects both. *)
Lemma setPosition_batch_witness :
  natives (fst (setPositionCommand listDocument
                  [layerOne; groupEndOne; layerTwo]
                  (Position.mk (Some 5) None) acceptingEnv))
  = [batchPlayObjects
       [PlaySelect [DocumentById 42; LayerById 1];
        PlayTranslate [DocumentById 42; LayerById 1]
                      (unitLib.pixels (5 - 0)) (unitLib.pixels (0 - 0));
        PlaySelect [DocumentById 42; LayerById 2];
        PlayTranslate [DocumentById 42; LayerById 2]
                      (unitLib.pixels (5 - 0)) (unitLib.pixels (200 - 200));
        PlaySelect [DocumentById 42; LayerById 1; LayerById 2]]
       None].
Proof.
  apply (setPosition_batch acceptingEnv listDocument
           [layerOne; groupEndOne; layerTwo] (Position.mk (Some 5) None)).
  discriminate.
Defined.

(** Only a group end is given. *)
Lemma setPosition_without_layers_witness :
  setPositionCommand listDocument [groupEndOne] (Position.mk (Some 5) None)
                     acceptingEnv
  = ([Dispatch TRANSLATE_LAYERS
        (PositionPayload 42 [] (Position.mk (Some 5) None));
      Native (batchPlayObjects [PlaySelect [DocumentById 42]] None)],
     Normal Fulfilled).
Proof.
  apply (setPosition_without_layers acceptingEnv listDocument [groupEndOne]
           (Position.mk (Some 5) None)).
  reflexivity.
Defined.

(** One layer is resized: the event names that layer. *)
Lemma setSize_with_layers_witness :
  dispatched (fst (setSizeCommand listDocument [layerOne; groupEndOne]
                     (Size.mk (Some 200) None) acceptingEnv))
  = [(RESIZE_LAYERS, SizePayload 42 [1%Z] (Size.mk (Some 200) None))].
Proof.
  apply (setSize_with_layers acceptingEnv listDocument [layerOne; groupEndOne]
           (Size.mk (Some 200) None)).
  discriminate.
Defined.

(** The id 2 in the batch belongs to a layer that is no group end. *)
Lemma group_ends_never_addressed_witness :
  exists layer,
    In layer [layerOne; groupEndOne; layerTwo]
    /\ isGroupEnd layer = false /\ Layer.id layer = 2%Z.
Proof.
  eapply (group_ends_never_addressed acceptingEnv listDocument
            [layerOne; groupEndOne; layerTwo]
            (Position.mk (Some 5) None) (Size.mk None None)).
  - left. left. reflexivity.
  - right. right. right. left. reflexivity.
Defined.

(** A new left for the second list item: the delta along x is the
    difference, the one along y is zero. *)
Lemma translate_leaves_unnamed_axis_witness :
  _getTranslatePlayObject listDocument layerTwo (Position.mk (Some 10) None)
  = PlayTranslate [DocumentById 42; LayerById 2]
                  (unitLib.pixels 10) (unitLib.pixels 0).
Proof.
  destruct (translate_leaves_unnamed_axis listDocument layerTwo
              (Position.mk (Some 10) None))
    as (xDelta & yDelta & Hobject & Hx & _ & _ & Hy).
  rewrite Hobject, (Hx 10 eq_refl), (Hy eq_refl eq_refl). reflexivity.
Defined.

(** A new width for the first list item, 100 wide and 50 high: it is
    moved by half the change along x and not at all along y. *)
Lemma resize_leaves_unnamed_dimension_witness :
  _getResizePlayObject listDocument layerOne (Size.mk (Some 640) None)
  = PlayMerge
      (PlayTranslate [DocumentById 42; LayerById 1]
                     (unitLib.pixels 270) (unitLib.pixels 0))
      (PlaySetSize [DocumentById 42; LayerById 1]
                   (unitLib.pixels 640) (unitLib.pixels 50)).
Proof.
  destruct (resize_leaves_unnamed_dimension listDocument layerOne
              (Size.mk (Some 640) None))
    as (xDelta & yDelta & newWidth & newHeight
        & Hobject & Hwidth & Hheight & Hx & _ & _ & Hy).
  rewrite Hobject, Hwidth, Hheight, (Hx 640 eq_refl), (Hy eq_refl eq_refl).
  reflexivity.
Defined.

(** The group and one of its children are moved: the reset covers the
    other child too. *)
Lemma setPosition_reconciles_groups_witness :
  exists descendants,
    transfers (fst (setPositionCommand groupDocument [groupLayer; layerOne]
                      (Position.mk (Some 5) None) acceptingEnv))
    = [ToResetLayers groupDocument descendants]
    /\ In layerTwo descendants
    /\ NoDup descendants.
Proof.
  destruct (proj2 (setPosition_reconciles_groups acceptingEnv groupDocument
                     [groupLayer; layerOne] (Position.mk (Some 5) None))
              eq_refl _ eq_refl eq_refl)
    as (descendants & Htransfers & _ & _ & Hmany).
  destruct (Hmany ltac:(discriminate)) as [Hnodup Hmember].
  exists descendants. repeat split; try assumption.
  apply Hmember. exists groupLayer.
  split; [left; reflexivity | right; right; left; reflexivity].
Defined.


(** The background comes first and is passed over; the reset covers
    the background and the children of the group. *)
Lemma flip_first_non_background_witness :
  exists before repLayer after descendants,
    [backgroundLayer; groupLayer] = before ++ repLayer :: after
    /\ Layer.isBackground repLayer = false
    /\ natives (fst (flipCommand groupDocument [backgroundLayer; groupLayer]
                       "vertical" acceptingEnv))
       = [playObject (PlayFlip (LayerById (Layer.id repLayer)) "vertical")]
    /\ transfers (fst (flipCommand groupDocument [backgroundLayer; groupLayer]
                         "vertical" acceptingEnv))
       = [ToResetLayers groupDocument descendants]
    /\ In backgroundLayer descendants
    /\ In layerTwo descendants
    /\ NoDup descendants.
Proof.
  destruct (flip_first_non_background acceptingEnv groupDocument
              [backgroundLayer; groupLayer] "vertical")
    as (before & repLayer & after & Hlayers & _ & Hrep & Hnatives & Hreset).
  - right. left. reflexivity.
  - destruct (Hreset eq_refl) as (descendants & Htransfers & _ & Hnodup & Hmember).
    exists before, repLayer, after, descendants.
    repeat split; try assumption.
    + apply Hmember. exists backgroundLayer. split; left; reflexivity.
    + apply Hmember. exists groupLayer.
      split; [right; left; reflexivity | right; right; left; reflexivity].
Defined.

Lemma current_document_locked_witness :
  flipXCurrentDocumentCommand lockedEnv = ([], Normal Fulfilled)
  /\ rotateLayersInCurrentDocumentCommand {| angle := None |} lockedEnv
     = ([LogError "Missing angle"], Normal Fulfilled).
Proof.
  destruct (current_document_locked lockedEnv lockedDocument {| angle := None |}
              eq_refl eq_refl)
    as (HflipX & _ & _ & Hrotate).
  split; [exact HflipX | exact Hrotate].
Defined.

Lemma current_document_missing_witness :
  rotateLayersInCurrentDocumentCommand {| angle := None |} emptyEnv
  = ([LogError "Missing angle"], Normal Fulfilled)
  /\ exists message,
       flipXCurrentDocumentCommand emptyEnv = ([], Throw (TypeError message)).
Proof.
  destruct (current_document_missing emptyEnv {| angle := None |} eq_refl)
    as (Hrotate & message & HflipX & _).
  split; [exact Hrotate | exists message; exact HflipX].
Defined.

(** The rotate-right entry of the menu, with a document open. *)
Lemma current_document_transfers_witness :
  rotateLayersInCurrentDocumentCommand {| angle := Some 90 |} acceptingEnv
  = ([Transfer (ToRotate listDocument 90)], Normal Fulfilled).
Proof.
  apply (current_document_transfers acceptingEnv listDocument 90); reflexivity.
Defined.

(** A swap of one layer throws and leaves no trace. *)
Lemma commands_throw_before_any_effect_witness :
  fst (invoke (CallSwapLayers listDocument [layerOne]) acceptingEnv) = [].
Proof.
  apply (commands_throw_before_any_effect acceptingEnv
           (CallSwapLayers listDocument [layerOne])
           (Error "Expected two layers")).
  reflexivity.
Defined.

(** The transfer of a fulfilled flip. *)
Lemma commands_transfer_only_reset_witness :
  isReset (ToResetLayers listDocument [layerOne]) = true
  /\ documentOf (ToResetLayers listDocument [layerOne]) = listDocument.
Proof.
  apply (commands_transfer_only_reset acceptingEnv
           (CallFlipX listDocument [layerOne])
           (ToResetLayers listDocument [layerOne])).
  left. reflexivity.
Defined.

Lemma navigation_keeps_index_in_range_witness :
  Carousel.InRange threeSlides
    (Carousel.index (Carousel.state (Carousel._nextItem threeSlides lastSlide))).
Proof.
  apply (CarouselFacts.navigation_keeps_index_in_range string threeSlides
           lastSlide).
  exists 2%Z. split; [reflexivity | cbn; lia].
Defined.

(** From the last slide, next wraps to the first and previous comes
    back. *)
Lemma wrapped_steps_undo_each_other_witness :
  Carousel.index
    (Carousel.state
       (Carousel._prevItem threeSlides
          (Carousel.state (Carousel._nextItem threeSlides lastSlide))))
  = Carousel.Num 2.
Proof.
  apply (CarouselFacts.wrapped_steps_undo_each_other string threeSlides
           lastSlide).
  - reflexivity.
  - exists 2%Z. split; [reflexivity | cbn; lia].
Defined.

(** Without wrapping, next stays on the last slide. *)
Lemma clamped_steps_witness :
  Carousel.index (Carousel.state (Carousel._nextItem clampedSlides lastSlide))
  = Carousel.Num 2.
Proof.
  apply (CarouselFacts.clamped_steps string clampedSlides lastSlide 2).
  - reflexivity.
  - reflexivity.
  - cbn. lia.
  - reflexivity.
Defined.

(** Wrapping from the last slide to the first is recorded as
    backward. *)
Lemma direction_of_steps_witness :
  Carousel.direction (Carousel.state (Carousel._nextItem threeSlides lastSlide))
  = "backward"%string.
Proof.
  apply (CarouselFacts.direction_of_steps string threeSlides lastSlide 2).
  - reflexivity.
  - cbn. lia.
Defined.

(** No previous button on the first slide. *)
Lemma buttons_stay_in_range_witness :
  Carousel._buildPreviousButton firstSlide = None.
Proof.
  apply (CarouselFacts.buttons_stay_in_range string threeSlides firstSlide 0).
  - reflexivity.
  - cbn. lia.
Defined.

(** With 0.5 and 1 taken, 1.5 is proposed for the third asset. *)
Lemma add_asset_proposes_first_unused_scale_witness :
  2%nat = List.length twoAssets
  /\ ~ LayerExports.Used twoAssets (3 # 2)%Q
  /\ exists before after,
       LayerExports.allScales = before ++ ((3 # 2)%Q) :: after
       /\ Forall (LayerExports.Used twoAssets) before.
Proof.
  apply (LayerExportsFacts.add_asset_proposes_first_unused_scale
           (Throw (TypeError "undefined")) twoAssets 2 (3 # 2)%Q).
  reflexivity.
Defined.
